(** * Valuation engine of the 1-1-1 rule pipeline

    A shallow embedding of [one_one_one_rule/transform_valuation.py]:
    the snapshot normalizer [cleanse_fundamentals], the cohort medians and
    the per-row derivation and classification of [apply_valuation].

    Numeric cells are IEEE-754 binary64 values (Python [float], numpy
    [float64]); an absent value is the NaN. Text cells are ASCII strings
    or one of the two null objects a pandas object column can hold. A
    DataFrame is a list of rows with the columns [_fetch_snapshot]
    produces; the frame without columns is a case of its own. The pandas
    embedded is the one before 3.0, where an object column holds the
    text and [astype(str)] writes a null cell out as text.

    The second part embeds the code around the engine: the snapshots of
    [_fetch_snapshot], the ticker lists of extract_tickers.py, the column
    layout of [_build_output], the settings of settings.py and the upload
    decisions of load_drive.py. What these call outside the repository
    (the quote service, the float parser, the environment, the file
    system, the Drive client) is a parameter of the embedding. *)

From Stdlib Require Import Floats ZArith Bool String Ascii List Arith Lia
  Permutation.
From Stdlib Require Sorted.
Import ListNotations.

#[local] Set Warnings "-inexact-float".

Local Open Scope string_scope.
Local Open Scope list_scope.

(** ** pandas and numpy primitives used by the module *)

(** [pd.isna] and [pd.notna] on a float cell. *)
Definition isna (x : float) : bool := PrimFloat.is_nan x.
Definition notna (x : float) : bool := negb (isna x).

(** Python comparisons on floats; every comparison with NaN is [False]. *)
Definition gt (x y : float) : bool := (y <? x)%float.
Definition ge (x y : float) : bool := (y <=? x)%float.
Definition le (x y : float) : bool := (x <=? y)%float.
Definition lt (x y : float) : bool := (x <? y)%float.

(** A cell of an object column: a [str], [float('nan')] or [None]. *)
Inductive text : Type :=
  | Str (s : string)
  | NaNText
  | NoneText.

Definition text_eqb (a b : text) : bool :=
  match a, b with
  | Str s, Str s' => String.eqb s s'
  | NaNText, NaNText => true
  | NoneText, NoneText => true
  | _, _ => false
  end.

(** [Series.astype(str)] on an object column applies [str] to every cell,
    the null ones included: [str(float('nan'))] is the text "nan" and
    [str(None)] the text "None". This is pandas before 3.0; from 3.0 on
    [astype(str)] gives the string dtype, which keeps a null cell null. *)
Definition astype_str (c : text) : string :=
  match c with
  | Str s => s
  | NaNText => "nan"
  | NoneText => "None"
  end.

(** [str.isspace] on the ASCII range: TAB, LF, VT, FF, CR, FS, GS, RS, US
    and the space. *)
Definition is_space (c : ascii) : bool :=
  let n := nat_of_ascii c in
  ((9 <=? n)%nat && (n <=? 13)%nat) || ((28 <=? n)%nat && (n <=? 32)%nat).

Fixpoint lstrip (s : string) : string :=
  match s with
  | EmptyString => EmptyString
  | String c s' => if is_space c then lstrip s' else s
  end.

Fixpoint rstrip (s : string) : string :=
  match s with
  | EmptyString => EmptyString
  | String c s' =>
      match rstrip s' with
      | EmptyString => if is_space c then EmptyString else String c EmptyString
      | r => String c r
      end
  end.

(** [str.strip()] *)
Definition strip (s : string) : string := rstrip (lstrip s).

Fixpoint map_chars (f : ascii -> ascii) (s : string) : string :=
  match s with
  | EmptyString => EmptyString
  | String c s' => String (f c) (map_chars f s')
  end.

Definition upper_char (c : ascii) : ascii :=
  let n := nat_of_ascii c in
  if (97 <=? n)%nat && (n <=? 122)%nat then ascii_of_nat (n - 32) else c.

(** [str.upper()] on ASCII text: a byte from a to z becomes the byte
    from A to Z, every other byte stays. Text is ASCII throughout; on a
    character outside ASCII Python's [upper], [lower] and [strip] do
    more than these maps. *)
Definition upper (s : string) : string := map_chars upper_char s.

(** [str.replace(".", "-")]: both patterns are one character long. *)
Definition replace_dot_char (c : ascii) : ascii :=
  if Ascii.eqb c "."%char then "-"%char else c.
Definition replace_dot (s : string) : string := map_chars replace_dot_char s.

(** [Series.replace([np.inf, -np.inf], np.nan)] on one float cell. *)
Definition replace_inf (x : float) : float :=
  if (x =? infinity)%float || (x =? neg_infinity)%float then nan else x.

(** Sorting of the present values, for the median. *)
Fixpoint insert_sorted (x : float) (l : list float) : list float :=
  match l with
  | [] => [x]
  | y :: l' => if le x y then x :: l else y :: insert_sorted x l'
  end.

Definition sort_floats (l : list float) : list float :=
  fold_right insert_sorted [] l.

(** [Series.median()] with the default [skipna=True]: NaN cells are left
    out, no value left gives NaN, an even count gives the mean of the two
    middle values. Among cells that compare equal, +0.0 and -0.0, the
    order is the one of [sort_floats]; the selection pandas uses can put
    them the other way round, so the sign of a median that is a zero is
    not settled by this definition. *)
Definition median (l : list float) : float :=
  let v := sort_floats (filter notna l) in
  let n := length v in
  match n with
  | O => nan
  | _ =>
      if Nat.even n
      then ((nth (n / 2 - 1) v nan + nth (n / 2) v nan) / 2)%float
      else nth (n / 2) v nan
  end.

(** A Series indexed by sector name, as [groupby(...).median()] returns. *)
Definition Series := list (string * float).

(** [Series.get(key)]: the value at [key], [None] when the key is not in
    the index (a null key never is). *)
Fixpoint series_lookup (s : Series) (k : string) : option float :=
  match s with
  | [] => None
  | (k', v) :: s' => if String.eqb k' k then Some v else series_lookup s' k
  end.

Definition series_get (s : Series) (key : text) : option float :=
  match key with
  | Str k => series_lookup s k
  | _ => None
  end.

(** [pd.isna] on what [Series.get] returns: [None] is null too. *)
Definition isna_opt (v : option float) : bool :=
  match v with
  | None => true
  | Some x => isna x
  end.

(** [Series.map(other_series)]: a key that is not in the index maps to NaN. *)
Definition series_map (s : Series) (key : text) : float :=
  match series_get s key with
  | Some v => v
  | None => nan
  end.

(** [Series.fillna(value)] on one float cell. *)
Definition fillna (x value : float) : float := if isna x then value else x.

(** ** The data model *)

(** One row of the fundamentals table, with the columns of
    [_fetch_snapshot]. *)
Record Row : Type := mkRow {
  ticker : text;
  company : text;
  sector : text;
  price : float;
  market_cap : float;
  currency : text;
  trailing_pe : float;
  forward_pe : float;
  trailing_eps : float;
  forward_eps : float;
  earnings_growth : float;
  peg_ratio : float;
  book_value_per_share : float;
  target_mean_price : float
}.

(** A frame that has the fourteen columns, as the list of its rows in
    index order; it may have no row. The frame without any column, which
    [pd.DataFrame([])] is, is [NoColumns] of [PandasFrame] below. *)
Definition DataFrame := list Row.

Record ValuationThresholds : Type := mkThresholds {
  undervalued : float;
  overvalued : float;
  peg_max : float;
  pe_sector_max_mult : float;
  margin_of_safety_min : float
}.

Definition set_ticker (r : Row) (t : text) : Row :=
  mkRow t (company r) (sector r) (price r) (market_cap r) (currency r)
        (trailing_pe r) (forward_pe r) (trailing_eps r) (forward_eps r)
        (earnings_growth r) (peg_ratio r) (book_value_per_share r)
        (target_mean_price r).

Definition set_peg_ratio (r : Row) (v : float) : Row :=
  mkRow (ticker r) (company r) (sector r) (price r) (market_cap r)
        (currency r) (trailing_pe r) (forward_pe r) (trailing_eps r)
        (forward_eps r) (earnings_growth r) v (book_value_per_share r)
        (target_mean_price r).

(** ** cleanse_fundamentals *)

(** Lines 105-111: the ticker column as text, trimmed, upper-cased, with
    every dot replaced by a dash. *)
Definition normalize_ticker (c : text) : string :=
  replace_dot (upper (strip (astype_str c))).

Definition normalize_ticker_row (r : Row) : Row :=
  set_ticker r (Str (normalize_ticker (ticker r))).

(** Line 112: [df["ticker"].notna() & (df["ticker"] != "")]. *)
Definition ticker_kept (r : Row) : bool :=
  match ticker r with
  | Str s => negb (String.eqb s "")
  | NaNText | NoneText => false
  end.

Definition mem_text (k : text) (seen : list text) : bool :=
  existsb (text_eqb k) seen.

(** Line 113: [drop_duplicates(subset=["ticker"], keep="first")]; [seen]
    holds the tickers of the rows already kept. *)
Fixpoint drop_duplicates_from (seen : list text) (df : DataFrame) : DataFrame :=
  match df with
  | [] => []
  | r :: df' =>
      if mem_text (ticker r) seen
      then drop_duplicates_from seen df'
      else r :: drop_duplicates_from (ticker r :: seen) df'
  end.

Definition drop_duplicates (df : DataFrame) : DataFrame :=
  drop_duplicates_from [] df.

(** Lines 143 and 145: [df.loc[df[col] <= 0, col] = np.nan]. *)
Definition nonpositive_to_nan (x : float) : float :=
  if le x 0 then nan else x.

(** Line 147: [replace("", "Unknown").fillna("Unknown")]. *)
Definition fill_sector (c : text) : text :=
  match c with
  | Str s => if String.eqb s "" then Str "Unknown" else Str s
  | NaNText | NoneText => Str "Unknown"
  end.

(** Lines 115-147 on one row. The schema coerces the text columns with
    [str] keeping nulls and the numeric columns to [float64], which the
    cells of a [Row] already are; then the infinities and the
    non-positive prices and market caps become NaN and the sector is
    filled in. *)
Definition clean_values (r : Row) : Row :=
  mkRow (ticker r) (company r) (fill_sector (sector r))
        (nonpositive_to_nan (replace_inf (price r)))
        (nonpositive_to_nan (replace_inf (market_cap r)))
        (currency r)
        (replace_inf (trailing_pe r)) (replace_inf (forward_pe r))
        (replace_inf (trailing_eps r)) (replace_inf (forward_eps r))
        (replace_inf (earnings_growth r)) (replace_inf (peg_ratio r))
        (replace_inf (book_value_per_share r))
        (replace_inf (target_mean_price r)).

(** The ticker stage alone, lines 104-113. *)
Definition filter_tickers (df : DataFrame) : DataFrame :=
  filter ticker_kept (map normalize_ticker_row df).

Definition cleanse_fundamentals (df : DataFrame) : DataFrame :=
  map clean_values (drop_duplicates (filter_tickers df)).

(** ** Cohort medians (apply_valuation, lines 216-219) *)

(** The group keys of [groupby("sector")]: the distinct non-null sectors. *)
Definition sector_keys (df : DataFrame) : list string :=
  nodup string_dec
    (flat_map (fun r => match sector r with Str s => [s] | _ => [] end) df).

Definition in_sector (s : string) (r : Row) : bool :=
  text_eqb (sector r) (Str s).

(** [df.groupby("sector")[col].median()] *)
Definition groupby_sector_median (col : Row -> float) (df : DataFrame) : Series :=
  map (fun s => (s, median (map col (filter (in_sector s) df))))
      (sector_keys df).

(** [df[col].median()] *)
Definition column_median (col : Row -> float) (df : DataFrame) : float :=
  median (map col df).

(** ** Metric derivation *)

(** The frame after lines 232-236: the input columns with [peg_ratio]
    overwritten, and the columns added so far. *)
Record DerivedRow : Type := mkDerived {
  base : Row;
  graham_value : float;
  peg_ratio_source : string;
  sector_median_pe_col : float;
  pe_median_used : float
}.

(** Lines 164-166 and 172-174: [pe = series.get(sector)], replaced by the
    overall median when it is null. *)
Definition or_overall (pe : option float) (overall : float) : float :=
  match pe with
  | Some v => if isna v then overall else v
  | None => overall
  end.

Definition _select_fair_value (row : DerivedRow)
    (sector_median_pe : Series) (overall_median_pe : float)
    (sector_median_fpe : Series) (overall_median_fpe : float)
    : float * string :=
  let graham_value := graham_value row in
  if notna graham_value && gt graham_value 0
  then (graham_value, "graham_value")
  else
    let target_mean_price := target_mean_price (base row) in
    if notna target_mean_price && gt target_mean_price 0
    then (target_mean_price, "target_mean_price")
    else
      let trailing_eps := trailing_eps (base row) in
      let trailing :=
        if notna trailing_eps && gt trailing_eps 0
        then
          let pe := or_overall (series_get sector_median_pe (sector (base row)))
                               overall_median_pe in
          if notna pe && gt pe 0
          then Some ((trailing_eps * pe)%float, "sector_median_trailing_pe")
          else None
        else None in
      match trailing with
      | Some result => result
      | None =>
          let forward_eps := forward_eps (base row) in
          let forward :=
            if notna forward_eps && gt forward_eps 0
            then
              let pe := or_overall
                          (series_get sector_median_fpe (sector (base row)))
                          overall_median_fpe in
              if notna pe && gt pe 0
              then Some ((forward_eps * pe)%float, "sector_median_forward_pe")
              else None
            else None in
          match forward with
          | Some result => result
          | None => (nan, "missing")
          end
      end.

Definition _compute_graham_value (row : Row) : float :=
  let eps := trailing_eps row in
  let book_value := book_value_per_share row in
  if notna eps && notna book_value && gt eps 0 && gt book_value 0
  then PrimFloat.sqrt (22.5 * eps * book_value)%float
  else nan.

Definition _compute_peg_ratio (row : Row) : float * string :=
  let peg_ratio := peg_ratio row in
  if notna peg_ratio && gt peg_ratio 0
  then (peg_ratio, "reported")
  else
    let trailing_pe := trailing_pe row in
    let earnings_growth := earnings_growth row in
    if notna trailing_pe && gt trailing_pe 0
       && notna earnings_growth && gt earnings_growth 0
    then
      let growth_pct :=
        if le earnings_growth 1 then (earnings_growth * 100)%float
        else earnings_growth in
      if gt growth_pct 0
      then ((trailing_pe / growth_pct)%float, "derived")
      else (nan, "missing")
    else (nan, "missing").

Definition _pass_fail_unknown (valid condition : bool) : string :=
  if negb valid then "unknown"
  else if condition then "pass" else "fail".

(** ** Verdicts *)

(** The three check columns [hunter_classify] reads. *)
Record Checks : Type := mkChecks {
  peg_pass : string;
  pe_vs_sector_pass : string;
  margin_of_safety_pass : string
}.

Definition hunter_classify (row : Checks) : string :=
  let checks := [peg_pass row; pe_vs_sector_pass row;
                 margin_of_safety_pass row] in
  if existsb (fun value => String.eqb value "unknown") checks
  then "unknown"
  else if forallb (fun value => String.eqb value "pass") checks
  then "pass"
  else "fail".

(** [classify] reads the columns [price] and [fair_value] of its row. *)
Definition classify (thresholds : ValuationThresholds)
    (price fair_value : float) : string :=
  if isna price || isna fair_value || le fair_value 0
  then "unknown"
  else if le price (fair_value * undervalued thresholds)%float
  then "undervalued"
  else if ge price (fair_value * overvalued thresholds)%float
  then "overvalued"
  else "fair".

(** One row of the frame [apply_valuation] returns. *)
Record ValuedRow : Type := mkValued {
  derived : DerivedRow;
  fair_value : float;
  fair_value_source : string;
  margin_of_safety : float;
  checks : Checks;
  valuation_hunter : string;
  valuation : string;
  pct_diff : float
}.

(** ** apply_valuation

    The function fills the frame column by column; every column is
    computed from the cells of one row and from the medians, which are
    taken once from the input frame, so the embedding computes row by
    row. *)

(** Lines 226-236. *)
Definition derive_row (sector_median_pe : Series) (overall_median_pe : float)
    (row : Row) : DerivedRow :=
  let graham := _compute_graham_value row in
  let '(peg_value, peg_source) := _compute_peg_ratio row in
  let sector_pe := series_map sector_median_pe (sector row) in
  mkDerived (set_peg_ratio row peg_value) graham peg_source
            sector_pe (fillna sector_pe overall_median_pe).

(** Lines 254-258: [np.where(graham > 0, (graham - price) / graham, nan)]. *)
Definition margin_of_safety_of (graham price : float) : float :=
  if gt graham 0 then ((graham - price) / graham)%float else nan.

(** Lines 260-279. *)
Definition checks_of (thresholds : ValuationThresholds) (d : DerivedRow)
    (mos : float) : Checks :=
  let peg := peg_ratio (base d) in
  let pe := trailing_pe (base d) in
  let median_pe := pe_median_used d in
  mkChecks
    (_pass_fail_unknown (notna peg && gt peg 0)
                        (lt peg (peg_max thresholds)))
    (_pass_fail_unknown (notna pe && notna median_pe)
                        (le pe (median_pe * pe_sector_max_mult thresholds)%float))
    (_pass_fail_unknown (notna mos)
                        (ge mos (margin_of_safety_min thresholds))).

(** Lines 238-307. *)
Definition value_row (thresholds : ValuationThresholds)
    (sector_median_pe : Series) (overall_median_pe : float)
    (sector_median_fpe : Series) (overall_median_fpe : float)
    (d : DerivedRow) : ValuedRow :=
  let '(fv, source) :=
    _select_fair_value d sector_median_pe overall_median_pe
                       sector_median_fpe overall_median_fpe in
  let mos := margin_of_safety_of (graham_value d) (price (base d)) in
  let cs := checks_of thresholds d mos in
  mkValued d fv source mos cs
           (hunter_classify cs)
           (classify thresholds (price (base d)) fv)
           ((price (base d) - fv) / fv)%float.

Definition apply_valuation (df : DataFrame) (thresholds : ValuationThresholds)
    : list ValuedRow :=
  let sector_median_pe := groupby_sector_median trailing_pe df in
  let overall_median_pe := column_median trailing_pe df in
  let sector_median_fpe := groupby_sector_median forward_pe df in
  let overall_median_fpe := column_median forward_pe df in
  map (value_row thresholds sector_median_pe overall_median_pe
                 sector_median_fpe overall_median_fpe)
      (map (derive_row sector_median_pe overall_median_pe) df).

(** ** The rules as the specification words them

    These definitions follow the text of the specification, not the
    code; the theorems below compare them with the functions above. *)

(** "present and > 0" *)
Definition present_pos (x : float) : bool := notna x && gt x 0.

(** "the row's sector median, else the overall median" *)
Definition usable_multiple (sector_median : option float) (overall : float)
    : float :=
  match sector_median with
  | Some m => if notna m then m else overall
  | None => overall
  end.

(** An ordered list of (predicate, value, source tag) rules, evaluated
    first-match-wins. *)
Fixpoint first_match (rules : list (bool * (float * string)))
    (otherwise : float * string) : float * string :=
  match rules with
  | [] => otherwise
  | (true, result) :: _ => result
  | (false, _) :: rules' => first_match rules' otherwise
  end.

Definition fair_value_chain (graham target t_eps t_multiple f_eps f_multiple
    : float) : float * string :=
  first_match
    [ (present_pos graham, (graham, "graham_value"));
      (present_pos target, (target, "target_mean_price"));
      (present_pos t_eps && present_pos t_multiple,
       ((t_eps * t_multiple)%float, "sector_median_trailing_pe"));
      (present_pos f_eps && present_pos f_multiple,
       ((f_eps * f_multiple)%float, "sector_median_forward_pe")) ]
    (nan, "missing").

(** "multiplied by 100 when earnings_growth <= 1, used as-is otherwise" *)
Definition growth_percentage (growth : float) : float :=
  if le growth 1 then (growth * 100)%float else growth.

Definition peg_chain (reported pe growth : float) : float * string :=
  first_match
    [ (present_pos reported, (reported, "reported"));
      (present_pos pe && present_pos growth
         && gt (growth_percentage growth) 0,
       ((pe / growth_percentage growth)%float, "derived")) ]
    (nan, "missing").

(** The tickers of a frame after trim, upper-case and dot replacement,
    without repetition. *)
Definition distinct_normalized_tickers (df : DataFrame) : list string :=
  nodup string_dec (map (fun r => normalize_ticker (ticker r)) df).

Definition nonempty (s : string) : bool := negb (String.eqb s "").

(** The price-versus-fair-value verdict, one rule per case of the
    specification. *)
Inductive Verdict (th : ValuationThresholds) (p fv : float) : string -> Prop :=
  | verdict_unknown :
      isna p || isna fv || le fv 0 = true ->
      Verdict th p fv "unknown"
  | verdict_undervalued :
      isna p || isna fv || le fv 0 = false ->
      le p (fv * undervalued th)%float = true ->
      Verdict th p fv "undervalued"
  | verdict_overvalued :
      isna p || isna fv || le fv 0 = false ->
      le p (fv * undervalued th)%float = false ->
      ge p (fv * overvalued th)%float = true ->
      Verdict th p fv "overvalued"
  | verdict_fair :
      isna p || isna fv || le fv 0 = false ->
      le p (fv * undervalued th)%float = false ->
      ge p (fv * overvalued th)%float = false ->
      Verdict th p fv "fair".

(** Some check of the row is "unknown"; every check of the row is "pass". *)
Definition any_unknown (c : Checks) : Prop :=
  peg_pass c = "unknown" \/ pe_vs_sector_pass c = "unknown"
  \/ margin_of_safety_pass c = "unknown".

Definition all_pass (c : Checks) : Prop :=
  peg_pass c = "pass" /\ pe_vs_sector_pass c = "pass"
  /\ margin_of_safety_pass c = "pass".

(** The aggregate verdict [h] of a row with checks [c]: unknown dominates,
    then "pass" exactly when all three pass, else "fail". *)
Definition hunter_spec (c : Checks) (h : string) : Prop :=
  (any_unknown c -> h = "unknown") /\
  (~ any_unknown c ->
     (h = "pass" <-> all_pass c) /\ (~ all_pass c -> h = "fail")) /\
  (h = "fail" -> ~ any_unknown c).

(** "absent or strictly positive", and the weaker "absent or not below 0" *)
Definition absent_or_positive (x : float) : bool := isna x || gt x 0.
Definition absent_or_nonnegative (x : float) : bool := isna x || le 0 x.

(** The shapes a binary64 value that is absent or not below zero can
    have: NaN, +0, +infinity or a positive finite value. *)
Definition nonneg_form (s : spec_float) : Prop :=
  s = S754_nan \/ s = S754_zero false \/ s = S754_infinity false
  \/ exists m e, s = S754_finite false m e.

Definition pos_form (s : spec_float) : Prop :=
  s = S754_infinity false \/ exists m e, s = S754_finite false m e.

(** A row as the ticker stage leaves it: the ticker is a non-empty string
    that normalization does not change. *)
Definition normalized_row (r : Row) : Prop :=
  exists s, ticker r = Str s /\ normalize_ticker (Str s) = s /\ s <> "".

(** The first row of the frame whose normalized ticker is [k]. *)
Definition first_with_ticker (k : string) (df : DataFrame) : option Row :=
  find (fun q => String.eqb (normalize_ticker (ticker q)) k) df.

(** ** Sample rows *)

(** A row with the given ticker and every other field absent. *)
Definition blank_row (t : text) : Row :=
  mkRow t (Str "") (Str "") nan nan (Str "") nan nan nan nan nan nan nan nan.

Definition default_thresholds : ValuationThresholds :=
  mkThresholds 0.90 1.10 1.0 1.0 0.0.

(** A row whose positive trailing EPS and positive sector median PE have
    a product below the smallest binary64 value, and whose trailing PE
    over growth is below it too. *)
Definition tiny_row : Row :=
  mkRow (Str "TINY") (Str "Tiny Corp") (Str "Technology") 1 nan (Str "USD")
        1e-200 nan 1e-200 nan 1e200 nan nan nan.

(** * The rest of the pipeline *)

(** ** Ticker snapshots (transform_valuation.py, lines 12-96) *)

(** A value of the dictionaries the quote service returns: [None], a
    float, an integer (the non-negative ones below 2^63) or a string. *)
Inductive pyval : Type :=
  | PNone
  | PFloat (f : float)
  | PInt (n : PrimInt63.int)
  | PStr (s : string).

Definition dict := list (string * pyval).

(** [d.get(key)]: the value at [key], [None] when the key is missing. *)
Fixpoint dict_get (d : dict) (key : string) : pyval :=
  match d with
  | [] => PNone
  | (k, v) :: d' => if String.eqb k key then v else dict_get d' key
  end.

(** Python truth value: [None], zero and the empty string are false; NaN
    is true. *)
Definition truthy (v : pyval) : bool :=
  match v with
  | PNone => false
  | PFloat f => negb (f =? 0)%float
  | PInt n => negb (Uint63Axioms.is_zero n)
  | PStr s => negb (String.eqb s "")
  end.

(** [a or b] *)
Definition py_or (a b : pyval) : pyval := if truthy a then a else b.

(** [float_of_str] stands for the parser of [float(str)], which answers
    or raises [ValueError]; the integer case is the correctly rounded
    conversion. *)
Definition _safe_float (float_of_str : string -> option float)
    (value : pyval) : float :=
  match value with
  | PNone => nan
  | PFloat f => f
  | PInt n => of_uint63 n
  | PStr s =>
      match float_of_str s with
      | Some f => f
      | None => nan
      end
  end.

Fixpoint _first_value (values : list pyval) : pyval :=
  match values with
  | [] => PFloat nan
  | value :: rest =>
      match value with
      | PNone => _first_value rest
      | PFloat f => if PrimFloat.is_nan f then _first_value rest else value
      | PInt _ | PStr _ => value
      end
  end.

(** The test [_first_value] skips a value on. *)
Definition is_null (v : pyval) : bool :=
  match v with
  | PNone => true
  | PFloat f => PrimFloat.is_nan f
  | PInt _ | PStr _ => false
  end.

(** The dictionary [_fetch_snapshot] returns. *)
Record Snapshot : Type := mkSnapshot {
  s_ticker : string;
  s_company : pyval;
  s_sector : pyval;
  s_price : float;
  s_market_cap : float;
  s_currency : pyval;
  s_trailing_pe : float;
  s_forward_pe : float;
  s_trailing_eps : float;
  s_forward_eps : float;
  s_earnings_growth : float;
  s_peg_ratio : float;
  s_book_value_per_share : float;
  s_target_mean_price : float
}.

(** [x or {}] around a property access in [try]/[except]: [None] stands
    for an access that raised or answered [None]. *)
Definition or_empty (d : option dict) : dict :=
  match d with
  | Some d => d
  | None => []
  end.

(** [info_of] and [fast_info_of] stand for [yf.Ticker(ticker).info] and
    [.fast_info]. *)
Definition _fetch_snapshot (float_of_str : string -> option float)
    (info_of fast_info_of : string -> option dict) (ticker : string)
    : Snapshot :=
  let info := or_empty (info_of ticker) in
  let fast := or_empty (fast_info_of ticker) in
  let price := _first_value
                 [dict_get fast "last_price";
                  dict_get fast "regular_market_price";
                  dict_get info "currentPrice";
                  dict_get info "regularMarketPrice"] in
  let market_cap := _first_value
                      [dict_get fast "market_cap"; dict_get info "marketCap"] in
  let currency := _first_value
                    [dict_get fast "currency"; dict_get info "currency"] in
  mkSnapshot
    ticker
    (py_or (py_or (dict_get info "shortName") (dict_get info "longName"))
           (PStr ""))
    (py_or (dict_get info "sector") (PStr "Unknown"))
    (_safe_float float_of_str price)
    (_safe_float float_of_str market_cap)
    (py_or currency (PStr ""))
    (_safe_float float_of_str (dict_get info "trailingPE"))
    (_safe_float float_of_str (dict_get info "forwardPE"))
    (_safe_float float_of_str (dict_get info "trailingEps"))
    (_safe_float float_of_str (dict_get info "forwardEps"))
    (_safe_float float_of_str (dict_get info "earningsGrowth"))
    (_safe_float float_of_str (dict_get info "pegRatio"))
    (_safe_float float_of_str (dict_get info "bookValue"))
    (_safe_float float_of_str (dict_get info "targetMeanPrice")).

Definition fetch_fundamentals (float_of_str : string -> option float)
    (info_of fast_info_of : string -> option dict) (tickers : list string)
    : list Snapshot :=
  map (_fetch_snapshot float_of_str info_of fast_info_of) tickers.

(** A cell of an object column of [pd.DataFrame(rows)], when the value is
    a string or a null. *)
Definition text_of_pyval (v : pyval) : option text :=
  match v with
  | PNone => Some NoneText
  | PStr s => Some (Str s)
  | PFloat f => if PrimFloat.is_nan f then Some NaNText else None
  | PInt _ => None
  end.

(** The row of the frame for a snapshot whose text cells are strings or
    nulls. *)
Definition row_of_snapshot (s : Snapshot) : option Row :=
  match text_of_pyval (s_company s), text_of_pyval (s_sector s),
        text_of_pyval (s_currency s) with
  | Some company, Some sector, Some currency =>
      Some (mkRow (Str (s_ticker s)) company sector (s_price s)
                  (s_market_cap s) currency (s_trailing_pe s)
                  (s_forward_pe s) (s_trailing_eps s) (s_forward_eps s)
                  (s_earnings_growth s) (s_peg_ratio s)
                  (s_book_value_per_share s) (s_target_mean_price s))
  | _, _, _ => None
  end.

(** ** Ticker lists (extract_tickers.py) *)

Definition lower_char (c : ascii) : ascii :=
  let n := nat_of_ascii c in
  if (65 <=? n)%nat && (n <=? 90)%nat then ascii_of_nat (n + 32) else c.

(** [str.lower()] on ASCII text. *)
Definition lower (s : string) : string := map_chars lower_char s.

Definition _normalize_ticker (raw : string) : string :=
  let ticker := upper (strip raw) in
  if String.eqb ticker "" then "" else replace_dot ticker.

(** A frame read from a file or a web page: its columns in order, each
    with its label and its cells. Labels are strings and distinct, so
    [df[label]] is the column itself. *)
Definition Frame := list (string * list text).

(** [df.empty]: no column or no row. *)
Definition frame_empty (df : Frame) : bool :=
  match df with
  | [] => true
  | (_, cells) :: _ => (length cells =? 0)%nat
  end.

Fixpoint insert_string (x : string) (l : list string) : list string :=
  match l with
  | [] => [x]
  | y :: l' => if String.leb x y then x :: l else y :: insert_string x l'
  end.

(** [sorted(set(l))]: the distinct strings in increasing order. *)
Definition sorted_set (l : list string) : list string :=
  fold_right insert_string [] (nodup string_dec l).

(** [column.astype(str).map(_normalize_ticker)] followed by
    [[t for t in tickers if t]]. *)
Definition column_tickers (cells : list text) : list string :=
  filter nonempty (map (fun c => _normalize_ticker (astype_str c)) cells).

(** [tables] is what [pd.read_html] answers. In a table, the dictionary
    [columns] maps the trimmed lower-case label to the label, the last
    column winning when two labels give the same key. *)
Definition column_by_key (table : Frame) (key : string)
    : option (list text) :=
  option_map snd
    (find (fun col => String.eqb (lower (strip (fst col))) key) (rev table)).

Fixpoint tickers_of_candidates (table : Frame) (candidates : list string)
    : option (list string) :=
  match candidates with
  | [] => None
  | candidate :: rest =>
      match column_by_key table candidate with
      | Some cells =>
          let tickers := column_tickers cells in
          if (80 <=? length tickers)%nat
          then Some (sorted_set tickers)
          else tickers_of_candidates table rest
      | None => tickers_of_candidates table rest
      end
  end.

Fixpoint _tickers_from_wikipedia (tables : list Frame) : list string :=
  match tables with
  | [] => []
  | table :: rest =>
      if (length table =? 0)%nat
      then _tickers_from_wikipedia rest
      else
        match tickers_of_candidates table
                ["ticker"; "ticker symbol"; "symbol"] with
        | Some tickers => tickers
        | None => _tickers_from_wikipedia rest
        end
  end.

(** [file] is [None] when the path does not exist, else the frame
    [pd.read_csv] answers. *)
Definition _tickers_from_file (file : option Frame) : list string :=
  match file with
  | None => []
  | Some df =>
      if frame_empty df then []
      else
        let cells :=
          match find (fun col => String.eqb (lower (fst col)) "symbol") df with
          | Some col => snd col
          | None => snd (hd ("", []) df)
          end in
        sorted_set (column_tickers cells)
  end.

(** The exceptions met: [RuntimeError], whose message is left out,
    [ValueError] with its message, and [OtherError] for any other one
    ([IndexError], [OSError], [HttpError]). *)
Inductive exn : Type :=
  | RuntimeError
  | ValueError (message : string)
  | OtherError.

Inductive result (A : Type) : Type :=
  | Ok (value : A)
  | Raise (e : exn).
Arguments Ok {A} value.
Arguments Raise {A} e.

(** [wikipedia] is [None] when [_tickers_from_wikipedia] raises, which the
    caller catches. *)
Definition load_nasdaq100_tickers (use_wikipedia : bool)
    (wikipedia : option (list Frame)) (fallback_file : option Frame)
    : result (list string) :=
  let tickers :=
    if use_wikipedia
    then match wikipedia with
         | Some tables => _tickers_from_wikipedia tables
         | None => []
         end
    else [] in
  let tickers :=
    match tickers with
    | [] => _tickers_from_file fallback_file
    | _ => tickers
    end in
  match tickers with
  | [] => Raise RuntimeError
  | _ => Ok tickers
  end.

(** ** Output layout (pipeline_job.py, lines 20-60) *)

Definition mem_string (c : string) (l : list string) : bool :=
  existsb (String.eqb c) l.

(** The keys of the dictionary [_fetch_snapshot] returns, in order: the
    columns of the frame [fetch_fundamentals] builds. *)
Definition snapshot_columns : list string :=
  ["ticker"; "company"; "sector"; "price"; "market_cap"; "currency";
   "trailing_pe"; "forward_pe"; "trailing_eps"; "forward_eps";
   "earnings_growth"; "peg_ratio"; "book_value_per_share";
   "target_mean_price"].

(** The columns [apply_valuation] adds, in the order it assigns them. *)
Definition valuation_columns : list string :=
  ["graham_value"; "peg_ratio_source"; "sector_median_pe"; "pe_median_used";
   "fair_value"; "fair_value_source"; "margin_of_safety"; "peg_pass";
   "pe_vs_sector_pass"; "margin_of_safety_pass"; "valuation_hunter";
   "valuation"; "pct_diff"].

Definition ordered : list string :=
  ["as_of_date"; "run_ts_utc"; "ticker"; "company"; "sector"; "price";
   "peg_ratio"; "peg_ratio_source"; "trailing_pe"; "sector_median_pe";
   "pe_median_used"; "forward_pe"; "earnings_growth"; "trailing_eps";
   "forward_eps"; "book_value_per_share"; "graham_value";
   "margin_of_safety"; "peg_pass"; "pe_vs_sector_pass";
   "margin_of_safety_pass"; "valuation_hunter"; "fair_value";
   "fair_value_source"; "valuation"; "pct_diff"; "currency"; "market_cap";
   "target_mean_price"].

(** [df.insert(loc, column, value)] on the labels of the frame: it raises
    [ValueError] when the label exists already and [IndexError] when
    [loc] is beyond the last position. *)
Definition insert_column (loc : nat) (column : string)
    (columns : list string) : result (list string) :=
  if mem_string column columns
  then Raise (ValueError ("cannot insert " ++ column ++ ", already exists")%string)
  else if (length columns <? loc)%nat then Raise OtherError
  else Ok (firstn loc columns ++ column :: skipn loc columns).

(** The labels of the frame [_build_output] returns, for a frame with
    distinct labels [columns]. *)
Definition _build_output (columns : list string) : result (list string) :=
  match insert_column 0 "as_of_date" columns with
  | Raise e => Raise e
  | Ok columns1 =>
      match insert_column 1 "run_ts_utc" columns1 with
      | Raise e => Raise e
      | Ok columns2 =>
          Ok (filter (fun c => mem_string c columns2) ordered
              ++ filter (fun c => negb (mem_string c ordered)) columns2)
      end
  end.

(** ** Settings (settings.py) *)

(** [os.getenv(key, default)] *)
Definition getenv_or (getenv : string -> option string) (key default : string)
    : string :=
  match getenv key with
  | Some raw => raw
  | None => default
  end.

Definition _env_bool (getenv : string -> option string) (key : string)
    (default : bool) : bool :=
  match getenv key with
  | None => default
  | Some raw => mem_string (lower (strip raw)) ["1"; "true"; "yes"; "y"; "on"]
  end.

(** [text or None] and [text or fallback] on strings. *)
Definition or_none (s : string) : option string :=
  if String.eqb s "" then None else Some s.

Definition or_string (s fallback : string) : string :=
  if String.eqb s "" then fallback else s.

Record Settings : Type := mkSettings {
  timezone : string;
  output_dir : string;
  output_basename : string;
  write_dated_copy : bool;
  undervalued_threshold : float;
  overvalued_threshold : float;
  settings_peg_max : float;
  settings_pe_sector_max_mult : float;
  settings_margin_of_safety_min : float;
  use_wikipedia_tickers : bool;
  ticker_fallback_file : string;
  upload_to_drive : bool;
  drive_auth_mode : string;
  drive_service_account_file : string;
  drive_oauth_client_file : string;
  drive_oauth_token_file : string;
  drive_convert_to_sheets : bool;
  drive_folder_id : option string;
  drive_file_name : string;
  drive_file_id : option string;
  log_dir : string;
  log_file_prefix : string;
  upload_log_to_drive : bool
}.

(** [float(text)]: the parser answers or [ValueError] is raised; its
    message is abridged. *)
Definition float_of (float_of_str : string -> option float) (s : string)
    : result float :=
  match float_of_str s with
  | Some f => Ok f
  | None => Raise (ValueError "could not convert string to float")
  end.

Definition bind {A B : Type} (r : result A) (k : A -> result B) : result B :=
  match r with
  | Ok a => k a
  | Raise e => Raise e
  end.

Definition load_settings (float_of_str : string -> option float)
    (getenv : string -> option string) : result Settings :=
  let timezone := getenv_or getenv "PIPELINE_TIMEZONE" "Asia/Bangkok" in
  let output_dir := getenv_or getenv "OUTPUT_DIR" "data" in
  let output_basename :=
    getenv_or getenv "OUTPUT_BASENAME" "nasdaq100_latest.csv" in
  let write_dated_copy := _env_bool getenv "WRITE_DATED_COPY" true in
  bind (float_of float_of_str
          (getenv_or getenv "UNDERVALUED_THRESHOLD" "0.90"))
    (fun undervalued_threshold =>
  bind (float_of float_of_str
          (getenv_or getenv "OVERVALUED_THRESHOLD" "1.10"))
    (fun overvalued_threshold =>
  bind (float_of float_of_str (getenv_or getenv "PEG_MAX" "1.0"))
    (fun peg_max =>
  bind (float_of float_of_str (getenv_or getenv "PE_SECTOR_MAX_MULT" "1.0"))
    (fun pe_sector_max_mult =>
  bind (float_of float_of_str (getenv_or getenv "MARGIN_OF_SAFETY_MIN" "0.0"))
    (fun margin_of_safety_min =>
  let use_wikipedia_tickers := _env_bool getenv "USE_WIKIPEDIA_TICKERS" true in
  let ticker_fallback_file :=
    getenv_or getenv "TICKER_FALLBACK_FILE" "data/nasdaq100_tickers.csv" in
  let upload_to_drive := _env_bool getenv "UPLOAD_TO_DRIVE" true in
  let drive_auth_mode :=
    lower (strip (getenv_or getenv "GOOGLE_DRIVE_AUTH_MODE" "oauth")) in
  let drive_service_account_file :=
    getenv_or getenv "GOOGLE_SERVICE_ACCOUNT_FILE"
              "config/service_account.json" in
  let drive_oauth_client_file :=
    getenv_or getenv "GOOGLE_OAUTH_CLIENT_FILE" "config/credentials.json" in
  let drive_oauth_token_file :=
    getenv_or getenv "GOOGLE_OAUTH_TOKEN_FILE" "config/oauth_token.json" in
  let drive_convert_to_sheets :=
    _env_bool getenv "GOOGLE_DRIVE_CONVERT_TO_SHEETS" true in
  let drive_folder_id :=
    or_none (strip (getenv_or getenv "GOOGLE_DRIVE_FOLDER_ID" "")) in
  let drive_file_name :=
    getenv_or getenv "GOOGLE_DRIVE_FILE_NAME" "nasdaq100_valuations.csv" in
  let drive_file_id :=
    or_none (strip (getenv_or getenv "GOOGLE_DRIVE_FILE_ID" "")) in
  let log_dir := getenv_or getenv "LOG_DIR" "data/logs" in
  let log_file_prefix :=
    or_string (strip (getenv_or getenv "LOG_FILE_PREFIX" "pipeline"))
              "pipeline" in
  let upload_log_to_drive := _env_bool getenv "UPLOAD_LOG_TO_DRIVE" true in
  Ok (mkSettings timezone output_dir output_basename write_dated_copy
        undervalued_threshold overvalued_threshold peg_max pe_sector_max_mult
        margin_of_safety_min use_wikipedia_tickers ticker_fallback_file
        upload_to_drive drive_auth_mode drive_service_account_file
        drive_oauth_client_file drive_oauth_token_file drive_convert_to_sheets
        drive_folder_id drive_file_name drive_file_id log_dir log_file_prefix
        upload_log_to_drive)))))).

(** The thresholds [main] hands to [apply_valuation] (pipeline_job.py,
    lines 115-121). *)
Definition thresholds_of (settings : Settings) : ValuationThresholds :=
  mkThresholds (undervalued_threshold settings)
               (overvalued_threshold settings)
               (settings_peg_max settings)
               (settings_pe_sector_max_mult settings)
               (settings_margin_of_safety_min settings).

(** ** Drive upload (load_drive.py) *)

Definition _SHEET_MIME : string := "application/vnd.google-apps.spreadsheet".

(** [text.replace("'", "\\'")]: a backslash goes before every quote. *)
Fixpoint _escape_drive_query (text : string) : string :=
  match text with
  | EmptyString => EmptyString
  | String c rest =>
      if Ascii.eqb c "'"%char
      then String "\"%char (String "'"%char (_escape_drive_query rest))
      else String c (_escape_drive_query rest)
  end.

(** The inverse reading: [text.replace("\\'", "'")]. *)
Fixpoint unescape_drive_query (text : string) : string :=
  match text with
  | EmptyString => EmptyString
  | String c rest =>
      match rest with
      | String c' rest' =>
          if Ascii.eqb c "\"%char && Ascii.eqb c' "'"%char
          then String "'"%char (unescape_drive_query rest')
          else String c (unescape_drive_query rest)
      | EmptyString => String c EmptyString
      end
  end.

(** Truth value of an optional string: [None] and "" are false. *)
Definition given (s : option string) : bool :=
  match s with
  | Some s => negb (String.eqb s "")
  | None => false
  end.

(** The query of [find_existing_file_id]. *)
Definition existing_file_query (name : string) (folder_id : option string)
    : string :=
  let escaped_name := _escape_drive_query name in
  let query := ("name='" ++ escaped_name ++ "' and trashed=false")%string in
  match folder_id with
  | Some folder =>
      if negb (String.eqb folder "")
      then (query ++ " and '" ++ folder ++ "' in parents")%string
      else query
  | None => query
  end.

(** [files_list] stands for [service.files().list(q=...).execute()]: it
    answers the ids of the files found, an id being [None] when the
    entry has none, or raises. *)
Definition find_existing_file_id
    (files_list : string -> result (list (option string)))
    (name : string) (folder_id : option string) : result (option string) :=
  bind (files_list (existing_file_query name folder_id))
    (fun files =>
       match files with
       | [] => Ok None
       | file :: _ => Ok file
       end).

(** The credentials [get_drive_service] builds the client from. *)
Inductive credentials : Type :=
  | OAuthCredentials (client_file token_file : string)
  | ServiceAccountCredentials (key_file : string).

(** [exists] stands for [Path.exists]; a path argument is [None] or a
    path, and a path is always true. Loading the credentials and building
    the client are taken to succeed. *)
Definition get_drive_service (exists_ : string -> bool)
    (auth_mode : string)
    (service_account_file oauth_client_file oauth_token_file : option string)
    : result credentials :=
  let auth_mode := lower (or_string auth_mode "service_account") in
  if String.eqb auth_mode "oauth"
  then
    match oauth_client_file with
    | Some client =>
        if exists_ client
        then
          let token_file :=
            match oauth_token_file with
            | Some token => token
            | None => "config/oauth_token.json"
            end in
          Ok (OAuthCredentials client token_file)
        else Raise (ValueError "OAuth client file not found. Set GOOGLE_OAUTH_CLIENT_FILE.")
    | None => Raise (ValueError "OAuth client file not found. Set GOOGLE_OAUTH_CLIENT_FILE.")
    end
  else
    match service_account_file with
    | Some key =>
        if exists_ key
        then Ok (ServiceAccountCredentials key)
        else Raise (ValueError "Service account file not found. Set GOOGLE_SERVICE_ACCOUNT_FILE.")
    | None => Raise (ValueError "Service account file not found. Set GOOGLE_SERVICE_ACCOUNT_FILE.")
    end.

(** What [upload_file] ends with: an exception, or the request it sends
    last, an update of a file or the creation of one with the given
    metadata. *)
Inductive upload_outcome : Type :=
  | Raised (e : exn)
  | Updated (file_id : string)
  | Created (name : string) (parents : option string)
            (mime_type : option string).

(** Lines 248-274 of [upload_file]: the creation of a new file, refused
    for a service account without a folder. *)
Definition create_new_file (file_name : string) (folder_id : option string)
    (auth_mode : string) (convert_to_sheets : bool) : upload_outcome :=
  if negb (String.eqb auth_mode "oauth") && negb (given folder_id)
  then Raised (ValueError "folder_id is required to create a new file with a Service Account (Service Accounts do not have their own storage quota).")
  else Created file_name
         (if given folder_id then folder_id else None)
         (if convert_to_sheets then Some _SHEET_MIME else None).

(** Lines 219-233 of [upload_file]: with [convert_to_sheets], a file that
    is not a spreadsheet, or whose metadata cannot be read, is forgotten.
    [files_get] stands for [service.files().get(fileId=...).execute()]
    and answers the MIME type of the file, if it has one, or raises. *)
Definition keep_if_sheet (files_get : string -> result (option string))
    (file_id : option string) (convert_to_sheets : bool) : option string :=
  if given file_id && convert_to_sheets
  then
    match file_id with
    | Some id =>
        match files_get id with
        | Ok (Some mime) =>
            if String.eqb mime _SHEET_MIME then file_id else None
        | Ok None => None
        | Raise _ => None
        end
    | None => None
    end
  else file_id.

(** [media] tells whether [MediaFileUpload] could be built. *)
Definition upload_file (exists_ : string -> bool) (media : bool)
    (files_list : string -> result (list (option string)))
    (files_get : string -> result (option string))
    (service_account_file : option string) (file_name : string)
    (folder_id file_id : option string) (auth_mode : string)
    (oauth_client_file oauth_token_file : option string)
    (convert_to_sheets : bool) : upload_outcome :=
  match get_drive_service exists_ auth_mode service_account_file
                          oauth_client_file oauth_token_file with
  | Raise e => Raised e
  | Ok _ =>
      if negb media then Raised OtherError
      else
        let found :=
          if negb (given file_id)
          then find_existing_file_id files_list file_name folder_id
          else Ok file_id in
        match found with
        | Raise e => Raised e
        | Ok file_id =>
            let file_id := keep_if_sheet files_get file_id convert_to_sheets in
            match file_id with
            | Some id =>
                if given file_id then Updated id
                else create_new_file file_name folder_id auth_mode
                                     convert_to_sheets
            | None =>
                create_new_file file_name folder_id auth_mode
                                convert_to_sheets
            end
        end
  end.

(** [upload_csv] passes its arguments on with the MIME type "text/csv",
    which only the media body carries. *)
Definition upload_csv := upload_file.

(** ** Statements used by the properties of the rest of the pipeline *)

(** A three-valued check [s] for a validity test and a condition. *)
Definition tri_state (valid condition : bool) (s : string) : Prop :=
  (s = "unknown" <-> valid = false) /\
  (s = "pass" <-> valid = true /\ condition = true) /\
  (s = "fail" <-> valid = true /\ condition = false).

(** A float cell that is neither infinity. *)
Definition not_infinite (x : float) : bool :=
  negb ((x =? infinity)%float || (x =? neg_infinity)%float).

(** The numeric cells of a row. *)
Definition numeric_cells (r : Row) : list float :=
  [price r; market_cap r; trailing_pe r; forward_pe r; trailing_eps r;
   forward_eps r; earnings_growth r; peg_ratio r; book_value_per_share r;
   target_mean_price r].

(** A ticker as the ticker lists hold them: not empty and unchanged by
    normalization. *)
Definition normalized_ticker (t : string) : Prop :=
  t <> "" /\ normalize_ticker (Str t) = t.

(** Strictly increasing in the order of the code points. *)
Definition increasing (l : list string) : Prop :=
  Sorted.Sorted (fun a b => String.ltb a b = true) l.

(** [pd.DataFrame(rows)] for snapshots whose text cells are strings or
    nulls. *)
Fixpoint frame_of_snapshots (rows : list Snapshot) : option DataFrame :=
  match rows with
  | [] => Some []
  | s :: rest =>
      match row_of_snapshot s, frame_of_snapshots rest with
      | Some r, Some df => Some (r :: df)
      | _, _ => None
      end
  end.

(** The value at [key] is a string or [None]. *)
Definition text_valued (d : dict) (key : string) : Prop :=
  dict_get d key = PNone \/ exists s, dict_get d key = PStr s.

(** The answers for a ticker hold text at the keys read as text. *)
Definition text_keys_hold_text (info_of fast_info_of : string -> option dict)
    (t : string) : Prop :=
  text_valued (or_empty (info_of t)) "shortName" /\
  text_valued (or_empty (info_of t)) "longName" /\
  text_valued (or_empty (info_of t)) "sector" /\
  text_valued (or_empty (info_of t)) "currency" /\
  text_valued (or_empty (fast_info_of t)) "currency".

(** Sample answers of the quote service. *)
Definition sample_info : dict :=
  [("shortName", PStr "Apple Inc."); ("sector", PStr "Technology");
   ("currentPrice", PFloat 190.5); ("marketCap", PInt (Uint63Axioms.of_Z 2900000000000));
   ("trailingPE", PFloat 29.5); ("trailingEps", PFloat 6.4);
   ("bookValue", PFloat 4.2); ("currency", PStr "USD")].

Definition sample_fast_info : dict :=
  [("last_price", PFloat nan); ("regular_market_price", PFloat 191.25);
   ("market_cap", PNone)].

(** A ticker file with a company column before the symbol column. *)
Definition sample_ticker_file : Frame :=
  [("Company", [Str "Apple"; Str "Microsoft"; Str "Berkshire"; Str "Apple"]);
   ("Symbol", [Str "aapl "; Str "MSFT"; Str "brk.b"; Str "AAPL"])].

(** The part of [load_nasdaq100_tickers] that comes from the web page. *)
Definition wikipedia_tickers (use_wikipedia : bool)
    (wikipedia : option (list Frame)) : list string :=
  if use_wikipedia
  then match wikipedia with
       | Some tables => _tickers_from_wikipedia tables
       | None => []
       end
  else [].

Fixpoint count_char (c : ascii) (s : string) : nat :=
  match s with
  | EmptyString => 0
  | String c' rest =>
      (if Ascii.eqb c' c then 1 else 0) + count_char c rest
  end.

(** Every quote of the text stands right after a backslash;
    [after_backslash] tells whether the text itself does. *)
Fixpoint quotes_follow_backslash (after_backslash : bool) (s : string)
    : bool :=
  match s with
  | EmptyString => true
  | String c rest =>
      (if Ascii.eqb c "'"%char then after_backslash else true)
      && quotes_follow_backslash (Ascii.eqb c "\"%char) rest
  end.

(** A Drive in which no file is found and no metadata can be read. *)
Definition empty_drive_list (q : string) : result (list (option string)) :=
  Ok [].
Definition no_metadata (id : string) : result (option string) :=
  Raise OtherError.

(** ** Frames with and without columns *)

(** A frame as pandas holds it. [pd.DataFrame(rows)] of a list of
    snapshot dictionaries has the fourteen columns when the list has a
    row, and neither column nor row when the list is empty; a frame that
    has the columns keeps them when its rows are filtered out. *)
Inductive PandasFrame : Type :=
  | NoColumns
  | WithColumns (df : DataFrame).

(** [pd.DataFrame(rows)] *)
Definition from_records (rows : list Row) : PandasFrame :=
  match rows with
  | [] => NoColumns
  | _ :: _ => WithColumns rows
  end.

Inductive frame_result (A : Type) : Type :=
  | Returned (value : A)
  | RaisedKeyError (key : string).
Arguments Returned {A} value.
Arguments RaisedKeyError {A} key.

(** [df.columns] and the rows of the frame. *)
Definition frame_columns (df : PandasFrame) : list string :=
  match df with
  | NoColumns => []
  | WithColumns _ => snapshot_columns
  end.

Definition frame_rows (df : PandasFrame) : DataFrame :=
  match df with
  | NoColumns => []
  | WithColumns rows => rows
  end.

(** [apply_valuation] on a frame as pandas holds it. Its first line, 216,
    is [df.groupby("sector")["trailing_pe"]]: the grouping raises
    [KeyError] on a frame that has no column "sector", the selection on
    one that has no column "trailing_pe"; line 218 selects "forward_pe"
    likewise. On a frame with the columns the function runs as embedded
    above, for any number of rows. *)
Definition apply_valuation_frame (df : PandasFrame)
    (thresholds : ValuationThresholds) : frame_result (list ValuedRow) :=
  if negb (mem_string "sector" (frame_columns df))
  then RaisedKeyError "sector"
  else if negb (mem_string "trailing_pe" (frame_columns df))
  then RaisedKeyError "Column not found: trailing_pe"
  else if negb (mem_string "forward_pe" (frame_columns df))
  then RaisedKeyError "Column not found: forward_pe"
  else Returned (apply_valuation (frame_rows df) thresholds).

(** Every character of the text is an ASCII one. *)
Fixpoint is_ascii (s : string) : bool :=
  match s with
  | EmptyString => true
  | String c rest => (nat_of_ascii c <? 128)%nat && is_ascii rest
  end.

(** Two rows whose ticker cell is NaN. *)
Definition nan_ticker_rows : DataFrame :=
  [mkRow NaNText (Str "first") (Str "") nan nan (Str "") nan nan nan nan nan
         nan nan nan;
   mkRow NaNText (Str "second") (Str "") nan nan (Str "") nan nan nan nan nan
         nan nan nan].

(** ** Properties of the metric derivation and of the verdicts *)

Lemma or_overall_usable (pe : option float) (overall : float) :
  or_overall pe overall = usable_multiple pe overall.
Proof.
  destruct pe as [v|]; simpl; [|reflexivity].
  unfold notna. destruct (isna v); reflexivity.
Qed.

Lemma select_fair_value_chain (row : DerivedRow) (smpe : Series)
    (ompe : float) (smfpe : Series) (omfpe : float) :
  _select_fair_value row smpe ompe smfpe omfpe =
  fair_value_chain (graham_value row) (target_mean_price (base row))
    (trailing_eps (base row))
    (usable_multiple (series_get smpe (sector (base row))) ompe)
    (forward_eps (base row))
    (usable_multiple (series_get smfpe (sector (base row))) omfpe).
Proof.
  unfold _select_fair_value, fair_value_chain, present_pos.
  rewrite !or_overall_usable. cbn [first_match].
  destruct (notna (graham_value row) && gt (graham_value row) 0);
    [reflexivity|].
  destruct (notna (target_mean_price (base row))
            && gt (target_mean_price (base row)) 0); [reflexivity|].
  destruct (notna (trailing_eps (base row)) && gt (trailing_eps (base row)) 0);
    cbn [andb];
    [destruct (notna (usable_multiple (series_get smpe (sector (base row))) ompe)
               && gt (usable_multiple (series_get smpe (sector (base row))) ompe) 0);
     [reflexivity|]|];
    (destruct (notna (forward_eps (base row)) && gt (forward_eps (base row)) 0);
     cbn [andb]; [|reflexivity];
     destruct (notna (usable_multiple (series_get smfpe (sector (base row))) omfpe)
               && gt (usable_multiple (series_get smfpe (sector (base row))) omfpe) 0);
     reflexivity).
Qed.

Lemma value_row_fair_value (th : ValuationThresholds) (smpe : Series)
    (ompe : float) (smfpe : Series) (omfpe : float) (d : DerivedRow) :
  let v := value_row th smpe ompe smfpe omfpe d in
  derived v = d /\
  (fair_value v, fair_value_source v) =
    _select_fair_value d smpe ompe smfpe omfpe.
Proof.
  unfold value_row.
  destruct (_select_fair_value d smpe ompe smfpe omfpe) as [fv src].
  simpl. split; reflexivity.
Qed.

(** Every row of the returned frame is [value_row] of [derive_row] of an
    input row, with the medians of the input frame. *)
Lemma apply_valuation_row (df : DataFrame) (th : ValuationThresholds)
    (v : ValuedRow) :
  In v (apply_valuation df th) ->
  exists r, In r df /\
    derived v = derive_row (groupby_sector_median trailing_pe df)
                           (column_median trailing_pe df) r /\
    (fair_value v, fair_value_source v) =
      _select_fair_value (derived v)
        (groupby_sector_median trailing_pe df) (column_median trailing_pe df)
        (groupby_sector_median forward_pe df) (column_median forward_pe df).
Proof.
  unfold apply_valuation. intro Hin.
  apply in_map_iff in Hin. destruct Hin as [d [Hv Hd]].
  apply in_map_iff in Hd. destruct Hd as [r [Hr Hin]].
  destruct (value_row_fair_value th
              (groupby_sector_median trailing_pe df)
              (column_median trailing_pe df)
              (groupby_sector_median forward_pe df)
              (column_median forward_pe df) d) as [Hd Hfv].
  cbv zeta in Hd, Hfv. rewrite Hv in Hd, Hfv.
  exists r. rewrite Hd. repeat split; try assumption. symmetry; exact Hr.
Qed.

(** C1: for every row of the input frame, in order, [apply_valuation]
    returns the fair value and the source the four-tier first-match-wins
    chain gives for that row: its Graham value, its analyst target, its
    trailing EPS times the usable trailing PE multiple, its forward EPS
    times the usable forward PE multiple, else absent with source
    "missing"; the multiple is the median of the row's sector and, when
    that is absent, the overall median, both taken over the input frame.
    The same holds read on the cells of each returned row, of which there
    is one per input row. *)
Theorem fair_value_follows_chain (df : DataFrame) (th : ValuationThresholds) :
  map (fun v => (fair_value v, fair_value_source v)) (apply_valuation df th) =
  map (fun r =>
         fair_value_chain
           (_compute_graham_value r) (target_mean_price r) (trailing_eps r)
           (usable_multiple
              (series_get (groupby_sector_median trailing_pe df) (sector r))
              (column_median trailing_pe df))
           (forward_eps r)
           (usable_multiple
              (series_get (groupby_sector_median forward_pe df) (sector r))
              (column_median forward_pe df)))
      df /\
  length (apply_valuation df th) = length df /\
  Forall
    (fun v =>
       let row := base (derived v) in
       (fair_value v, fair_value_source v) =
       fair_value_chain
         (graham_value (derived v)) (target_mean_price row)
         (trailing_eps row)
         (usable_multiple
            (series_get (groupby_sector_median trailing_pe df) (sector row))
            (column_median trailing_pe df))
         (forward_eps row)
         (usable_multiple
            (series_get (groupby_sector_median forward_pe df) (sector row))
            (column_median forward_pe df)))
    (apply_valuation df th).
Proof.
  split; [|split].
  - unfold apply_valuation. rewrite !map_map. apply map_ext. intro r.
    match goal with
    | |- context [value_row ?t ?a ?b ?c ?e ?d] =>
        destruct (value_row_fair_value t a b c e d) as [_ Hfv]
    end.
    cbv zeta in Hfv. rewrite Hfv, select_fair_value_chain.
    unfold derive_row. destruct (_compute_peg_ratio r) as [pv ps].
    reflexivity.
  - unfold apply_valuation. rewrite !length_map. reflexivity.
  - rewrite Forall_forall. intros v Hin.
    destruct (apply_valuation_row df th v Hin) as [r [_ [_ Hfv]]].
    cbv zeta. rewrite Hfv. apply select_fair_value_chain.
Qed.

(** *** Facts on binary64 arithmetic, from the specification of the
    primitive operations *)

Lemma SFcompare_refl_not_nan (s : spec_float) :
  s <> S754_nan -> SFcompare s s = Some Eq.
Proof.
  destruct s as [b|b| |b m e]; simpl; intro H.
  - reflexivity.
  - destruct b; reflexivity.
  - contradiction H; reflexivity.
  - rewrite Z.compare_refl.
    assert (Hm : Pos.compare_cont Eq m m = Eq) by apply Pos.compare_refl.
    rewrite Hm. destruct b; reflexivity.
Qed.

Lemma isna_spec (x : float) : isna x = true <-> Prim2SF x = S754_nan.
Proof.
  unfold isna, is_nan. rewrite FloatAxioms.eqb_spec. unfold SFeqb. split.
  - intro H. destruct (Prim2SF x) as [b|b| |b m e] eqn:E; try reflexivity;
      rewrite SFcompare_refl_not_nan in H by discriminate; discriminate H.
  - intro H. rewrite H. reflexivity.
Qed.

Lemma isna_sub_r (x y : float) : isna y = true -> isna (x - y)%float = true.
Proof.
  rewrite !isna_spec, sub_spec. intro H. rewrite H.
  unfold SF64sub, SFsub. destruct (Prim2SF x); reflexivity.
Qed.

Lemma isna_div_l (x y : float) : isna x = true -> isna (x / y)%float = true.
Proof.
  rewrite !isna_spec, div_spec. intro H. rewrite H. reflexivity.
Qed.

Lemma gt_not_nan (x y : float) : gt x y = true -> notna x = true.
Proof.
  unfold gt, notna. rewrite FloatAxioms.ltb_spec. intro H.
  destruct (isna x) eqn:E; [|reflexivity].
  apply isna_spec in E. rewrite E in H. unfold SFltb in H.
  destruct (Prim2SF y); discriminate H.
Qed.

Lemma present_pos_gt (x : float) : present_pos x = gt x 0.
Proof.
  unfold present_pos. destruct (gt x 0) eqn:E.
  - rewrite (gt_not_nan _ _ E). reflexivity.
  - apply andb_false_r.
Qed.

(** *** PEG ratio *)

Lemma compute_peg_ratio_chain (row : Row) :
  _compute_peg_ratio row =
  peg_chain (peg_ratio row) (trailing_pe row) (earnings_growth row).
Proof.
  unfold _compute_peg_ratio, peg_chain, present_pos, growth_percentage.
  cbn [first_match].
  destruct (notna (peg_ratio row) && gt (peg_ratio row) 0); [reflexivity|].
  rewrite <- !andb_assoc.
  destruct (notna (trailing_pe row)); cbn [andb]; [|reflexivity].
  destruct (gt (trailing_pe row) 0); cbn [andb]; [|reflexivity].
  destruct (notna (earnings_growth row)); cbn [andb]; [|reflexivity].
  destruct (gt (earnings_growth row) 0); cbn [andb]; [|reflexivity].
  destruct (gt (if le (earnings_growth row) 1
                then (earnings_growth row * 100)%float
                else earnings_growth row) 0); reflexivity.
Qed.

Lemma derive_row_columns (smpe : Series) (ompe : float) (r : Row) :
  let d := derive_row smpe ompe r in
  (peg_ratio (base d), peg_ratio_source d) = _compute_peg_ratio r /\
  graham_value d = _compute_graham_value r /\
  base d = set_peg_ratio r (peg_ratio (base d)) /\
  sector_median_pe_col d = series_map smpe (sector r) /\
  pe_median_used d = fillna (series_map smpe (sector r)) ompe.
Proof.
  unfold derive_row. destruct (_compute_peg_ratio r) as [pv ps].
  simpl. repeat split; reflexivity.
Qed.

Lemma map_derived_value_row (th : ValuationThresholds) (smpe : Series)
    (ompe : float) (smfpe : Series) (omfpe : float) (l : list DerivedRow) :
  map derived (map (value_row th smpe ompe smfpe omfpe) l) = l.
Proof.
  induction l as [|d l IH]; [reflexivity|].
  cbn [map]. rewrite IH. f_equal. apply value_row_fair_value.
Qed.

Lemma apply_valuation_derived (df : DataFrame) (th : ValuationThresholds) :
  map derived (apply_valuation df th) =
  map (derive_row (groupby_sector_median trailing_pe df)
                  (column_median trailing_pe df)) df.
Proof.
  unfold apply_valuation. apply map_derived_value_row.
Qed.

(** C2: the PEG ratio and its source of every row follow the two-tier
    chain: the reported ratio when present and positive; else the
    trailing PE over the growth percentage (growth times 100 when it is
    at most 1) when both are present and positive and the percentage is
    positive; else absent with source "missing". A row with no reported
    ratio, trailing PE 20 and growth 0.15 gets 20/15, "derived". *)
Theorem peg_ratio_follows_chain :
  (forall (df : DataFrame) (th : ValuationThresholds),
     map (fun v => (peg_ratio (base (derived v)), peg_ratio_source (derived v)))
         (apply_valuation df th) =
     map (fun r => peg_chain (peg_ratio r) (trailing_pe r) (earnings_growth r))
         df) /\
  (forall (t c s : text) (p mc : float) (cur : text)
          (fpe teps feps bv tmp : float),
     _compute_peg_ratio (mkRow t c s p mc cur 20 fpe teps feps 0.15 nan bv tmp)
     = ((20 / 15)%float, "derived")).
Proof.
  split.
  - intros df th.
    rewrite <- (map_map derived
                  (fun d => (peg_ratio (base d), peg_ratio_source d))).
    rewrite apply_valuation_derived, map_map. apply map_ext. intro r.
    destruct (derive_row_columns (groupby_sector_median trailing_pe df)
                (column_median trailing_pe df) r) as [Hpeg _].
    cbv zeta in Hpeg. rewrite Hpeg. apply compute_peg_ratio_chain.
  - intros. vm_compute. reflexivity.
Qed.

(** *** Graham value and margin of safety *)

Lemma compute_graham_value_spec (r : Row) :
  _compute_graham_value r =
  if present_pos (trailing_eps r) && present_pos (book_value_per_share r)
  then PrimFloat.sqrt (22.5 * trailing_eps r * book_value_per_share r)%float
  else nan.
Proof.
  unfold _compute_graham_value, present_pos.
  destruct (notna (trailing_eps r)), (notna (book_value_per_share r)),
           (gt (trailing_eps r) 0), (gt (book_value_per_share r) 0);
    reflexivity.
Qed.

Lemma value_row_margin (th : ValuationThresholds) (smpe : Series)
    (ompe : float) (smfpe : Series) (omfpe : float) (d : DerivedRow) :
  margin_of_safety (value_row th smpe ompe smfpe omfpe d) =
  margin_of_safety_of (graham_value d) (price (base d)).
Proof.
  unfold value_row.
  destruct (_select_fair_value d smpe ompe smfpe omfpe). reflexivity.
Qed.

Lemma margin_of_safety_absent_price (g p : float) :
  isna p = true -> isna (margin_of_safety_of g p) = true.
Proof.
  intro Hp. unfold margin_of_safety_of. destruct (gt g 0).
  - apply isna_div_l, isna_sub_r, Hp.
  - reflexivity.
Qed.

(** C3: the Graham value of every row is sqrt(22.5 x trailing EPS x book
    value per share) when both are present and positive and absent
    otherwise; the margin of safety is (graham - price) / graham when the
    Graham value is present and positive and absent otherwise, and it is
    absent whenever the price is. *)
Theorem graham_value_and_margin (df : DataFrame) (th : ValuationThresholds) :
  map (fun v => graham_value (derived v)) (apply_valuation df th) =
  map (fun r =>
         if present_pos (trailing_eps r) && present_pos (book_value_per_share r)
         then PrimFloat.sqrt
                (22.5 * trailing_eps r * book_value_per_share r)%float
         else nan) df
  /\
  Forall
    (fun v =>
       let g := graham_value (derived v) in
       let p := price (base (derived v)) in
       margin_of_safety v =
         (if present_pos g then ((g - p) / g)%float else nan)
       /\ implb (isna p) (isna (margin_of_safety v)) = true)
    (apply_valuation df th).
Proof.
  split.
  - rewrite <- (map_map derived graham_value).
    rewrite apply_valuation_derived, map_map. apply map_ext. intro r.
    destruct (derive_row_columns (groupby_sector_median trailing_pe df)
                (column_median trailing_pe df) r) as [_ [Hg _]].
    cbv zeta in Hg. rewrite Hg. apply compute_graham_value_spec.
  - unfold apply_valuation. rewrite Forall_forall. intros v Hin.
    apply in_map_iff in Hin. destruct Hin as [d [Hv _]]. subst v.
    cbv zeta. rewrite value_row_margin.
    match goal with
    | |- context [derived ?v] =>
        replace (derived v) with d by (symmetry; apply value_row_fair_value)
    end.
    split.
    + unfold margin_of_safety_of. rewrite present_pos_gt. reflexivity.
    + destruct (isna (price (base d))) eqn:Hp; [|reflexivity].
      cbn [implb]. apply margin_of_safety_absent_price, Hp.
Qed.

(** *** Verdicts *)

Lemma classify_verdict (th : ValuationThresholds) (p fv : float) :
  Verdict th p fv (classify th p fv).
Proof.
  unfold classify.
  destruct (isna p || isna fv || le fv 0) eqn:H1;
    [apply verdict_unknown; exact H1|].
  destruct (le p (fv * undervalued th)) eqn:H2;
    [apply verdict_undervalued; assumption|].
  destruct (ge p (fv * overvalued th)) eqn:H3;
    [apply verdict_overvalued; assumption|].
  apply verdict_fair; assumption.
Qed.

Lemma value_row_valuation (th : ValuationThresholds) (smpe : Series)
    (ompe : float) (smfpe : Series) (omfpe : float) (d : DerivedRow) :
  let v := value_row th smpe ompe smfpe omfpe d in
  valuation v = classify th (price (base (derived v))) (fair_value v) /\
  valuation_hunter v = hunter_classify (checks v) /\
  checks v = checks_of th d (margin_of_safety v).
Proof.
  unfold value_row.
  destruct (_select_fair_value d smpe ompe smfpe omfpe).
  simpl. repeat split; reflexivity.
Qed.

(** C4: the valuation of every row is "unknown" when the price or the
    fair value is absent or the fair value is at most 0; else
    "undervalued" when price <= fair value x undervalued threshold; else
    "overvalued" when price >= fair value x overvalued threshold; else
    "fair". Price 90 against fair value 100 with threshold 0.90 is
    "undervalued": the bound is inclusive. *)
Theorem valuation_verdict :
  (forall (df : DataFrame) (th : ValuationThresholds),
     Forall (fun v => Verdict th (price (base (derived v))) (fair_value v)
                              (valuation v))
            (apply_valuation df th)) /\
  (forall over pm mult mos : float,
     classify (mkThresholds 0.90 over pm mult mos) 90 100 = "undervalued").
Proof.
  split.
  - intros df th. unfold apply_valuation. rewrite Forall_forall.
    intros v Hin. apply in_map_iff in Hin. destruct Hin as [d [Hv _]].
    subst v.
    destruct (value_row_valuation th
                (groupby_sector_median trailing_pe df)
                (column_median trailing_pe df)
                (groupby_sector_median forward_pe df)
                (column_median forward_pe df) d) as [Hval _].
    cbv zeta in Hval. rewrite Hval. apply classify_verdict.
  - intros. vm_compute. reflexivity.
Qed.

Lemma hunter_classify_spec (c : Checks) : hunter_spec c (hunter_classify c).
Proof.
  unfold hunter_spec, hunter_classify, any_unknown, all_pass.
  cbn [existsb forallb].
  destruct (String.eqb_spec (peg_pass c) "unknown") as [U1|U1];
  destruct (String.eqb_spec (pe_vs_sector_pass c) "unknown") as [U2|U2];
  destruct (String.eqb_spec (margin_of_safety_pass c) "unknown") as [U3|U3];
  cbn [orb];
  try (repeat split; intros; try reflexivity; try discriminate; tauto).
  destruct (String.eqb_spec (peg_pass c) "pass") as [P1|P1];
  destruct (String.eqb_spec (pe_vs_sector_pass c) "pass") as [P2|P2];
  destruct (String.eqb_spec (margin_of_safety_pass c) "pass") as [P3|P3];
  cbn [andb];
  repeat split; intros; try reflexivity; try discriminate; tauto.
Qed.

(** C5: the aggregate verdict of every row is "unknown" as soon as one of
    the three checks is "unknown"; when none is, it is "pass" exactly
    when all three are "pass" and "fail" otherwise; so a row is "fail"
    only when no check is "unknown". *)
Theorem hunter_unknown_dominates (df : DataFrame) (th : ValuationThresholds) :
  Forall (fun v => hunter_spec (checks v) (valuation_hunter v))
         (apply_valuation df th).
Proof.
  unfold apply_valuation. rewrite Forall_forall. intros v Hin.
  apply in_map_iff in Hin. destruct Hin as [d [Hv _]]. subst v.
  destruct (value_row_valuation th
              (groupby_sector_median trailing_pe df)
              (column_median trailing_pe df)
              (groupby_sector_median forward_pe df)
              (column_median forward_pe df) d) as [_ [Hh _]].
  cbv zeta in Hh. rewrite Hh. apply hunter_classify_spec.
Qed.

(** *** Signs of products and quotients of positive binary64 values *)

Lemma Prim2SF_zero : Prim2SF 0 = S754_zero false.
Proof. reflexivity. Qed.

Lemma round_aux_nonneg (m e : Z) (l : location) :
  nonneg_form (binary_round_aux prec emax false m e l).
Proof.
  unfold binary_round_aux, nonneg_form.
  destruct (shr_fexp prec emax m e l) as [mrs' e'].
  destruct (shr_fexp prec emax
              (round_nearest_even (shr_m mrs') (loc_of_shr_record mrs'))
              e' loc_Exact) as [mrs'' e''].
  destruct (shr_m mrs'') as [|q|q].
  - right; left; reflexivity.
  - destruct (Z.leb e'' (emax - prec)).
    + right; right; right. exists q, e''. reflexivity.
    + right; right; left; reflexivity.
  - left; reflexivity.
Qed.

Lemma gt_zero_form (x : float) : gt x 0 = true -> pos_form (Prim2SF x).
Proof.
  unfold gt, pos_form. rewrite FloatAxioms.ltb_spec, Prim2SF_zero.
  unfold SFltb. destruct (Prim2SF x) as [b|b| |b m e]; simpl;
    try discriminate.
  - destruct b; [discriminate|]. intros _. left; reflexivity.
  - destruct b; [discriminate|]. intros _. right. exists m, e. reflexivity.
Qed.

Lemma nonneg_form_bool (x : float) :
  nonneg_form (Prim2SF x) -> absent_or_nonnegative x = true.
Proof.
  unfold absent_or_nonnegative, nonneg_form.
  intros [H|[H|[H|[m [e H]]]]].
  - apply isna_spec in H. rewrite H. reflexivity.
  - unfold le. rewrite FloatAxioms.leb_spec, Prim2SF_zero, H.
    apply orb_true_r.
  - unfold le. rewrite FloatAxioms.leb_spec, Prim2SF_zero, H.
    apply orb_true_r.
  - unfold le. rewrite FloatAxioms.leb_spec, Prim2SF_zero, H.
    apply orb_true_r.
Qed.

Lemma gt_zero_nonneg (x : float) :
  gt x 0 = true -> absent_or_nonnegative x = true.
Proof.
  intro H. apply nonneg_form_bool. unfold nonneg_form.
  destruct (gt_zero_form x H) as [E|E]; tauto.
Qed.

Lemma mul_pos_nonneg (a b : float) :
  gt a 0 = true -> gt b 0 = true -> absent_or_nonnegative (a * b) = true.
Proof.
  intros Ha Hb. apply nonneg_form_bool. rewrite mul_spec.
  destruct (gt_zero_form a Ha) as [Ea|[ma [ea Ea]]];
  destruct (gt_zero_form b Hb) as [Eb|[mb [eb Eb]]];
  rewrite Ea, Eb; unfold SF64mul, SFmul; cbn [xorb].
  - right; right; left; reflexivity.
  - right; right; left; reflexivity.
  - right; right; left; reflexivity.
  - apply round_aux_nonneg.
Qed.

Lemma div_pos_nonneg (a b : float) :
  gt a 0 = true -> gt b 0 = true -> absent_or_nonnegative (a / b) = true.
Proof.
  intros Ha Hb. apply nonneg_form_bool. rewrite div_spec.
  destruct (gt_zero_form a Ha) as [Ea|[ma [ea Ea]]];
  destruct (gt_zero_form b Hb) as [Eb|[mb [eb Eb]]];
  rewrite Ea, Eb; unfold SF64div, SFdiv; cbn [xorb].
  - left; reflexivity.
  - right; right; left; reflexivity.
  - right; left; reflexivity.
  - destruct (SFdiv_core_binary prec emax (Z.pos ma) ea (Z.pos mb) eb)
      as [[mz ez] lz].
    apply round_aux_nonneg.
Qed.

(** A present value that is both at most 0 and absent-or-nonnegative is
    a zero. *)
Lemma nonneg_le_zero (x : float) :
  absent_or_nonnegative x = true ->
  implb (notna x && le x 0) (x =? 0)%float = true.
Proof.
  unfold absent_or_nonnegative, notna, le. intro H.
  destruct (isna x) eqn:Hn; [reflexivity|]. cbn [orb negb andb] in *.
  rewrite FloatAxioms.leb_spec, Prim2SF_zero in H.
  rewrite FloatAxioms.leb_spec, FloatAxioms.eqb_spec, Prim2SF_zero.
  unfold SFleb, SFeqb in *.
  destruct (Prim2SF x) as [b|b| |b m e]; simpl in *;
    try reflexivity; try discriminate H; destruct b; try reflexivity;
    discriminate H.
Qed.

(** *** Signs of the fair value and of the PEG ratio *)

Lemma fair_value_chain_sign (g t te tm fe fm : float) :
  let fv := fst (fair_value_chain g t te tm fe fm) in
  let src := snd (fair_value_chain g t te tm fe fm) in
  absent_or_nonnegative fv = true /\
  implb (String.eqb src "graham_value" || String.eqb src "target_mean_price")
        (gt fv 0) = true.
Proof.
  unfold fair_value_chain. rewrite !present_pos_gt. cbn [first_match].
  destruct (gt g 0) eqn:Hg;
    [cbn [fst snd]; split; [apply gt_zero_nonneg, Hg | rewrite Hg; reflexivity]|].
  destruct (gt t 0) eqn:Ht;
    [cbn [fst snd]; split; [apply gt_zero_nonneg, Ht | rewrite Ht; reflexivity]|].
  destruct (gt te 0) eqn:Hte, (gt tm 0) eqn:Htm; cbn [andb fst snd];
    try (split; [apply mul_pos_nonneg; assumption | reflexivity]);
    (destruct (gt fe 0) eqn:Hfe, (gt fm 0) eqn:Hfm; cbn [andb fst snd];
     split; try reflexivity; apply mul_pos_nonneg; assumption).
Qed.

Lemma peg_chain_sign (reported pe growth : float) :
  let peg := fst (peg_chain reported pe growth) in
  let src := snd (peg_chain reported pe growth) in
  absent_or_nonnegative peg = true /\
  implb (String.eqb src "reported") (gt peg 0) = true.
Proof.
  unfold peg_chain. rewrite !present_pos_gt. cbn [first_match].
  destruct (gt reported 0) eqn:Hr;
    [cbn [fst snd]; split; [apply gt_zero_nonneg, Hr | rewrite Hr; reflexivity]|].
  destruct (gt pe 0) eqn:Hpe, (gt growth 0) eqn:Hg,
           (gt (growth_percentage growth) 0) eqn:Hpct; cbn [andb fst snd];
    split; try reflexivity.
  apply div_pos_nonneg; assumption.
Qed.

(** C9, as the code has it: every fair value [apply_valuation] produces
    is absent or not below 0, and strictly positive when it comes from the
    Graham value or the analyst target; the overwritten PEG ratio is
    absent or not below 0, and strictly positive when reported. The
    products and the quotient of the other tiers can round to 0, so the
    [fair_value <= 0] branch of the classifier is taken exactly for a
    present fair value equal to 0. *)
Theorem fair_value_and_peg_not_negative (df : DataFrame)
    (th : ValuationThresholds) :
  Forall
    (fun v =>
       let fv := fair_value v in
       let peg := peg_ratio (base (derived v)) in
       absent_or_nonnegative fv = true /\
       implb (String.eqb (fair_value_source v) "graham_value"
              || String.eqb (fair_value_source v) "target_mean_price")
             (gt fv 0) = true /\
       implb (notna fv && le fv 0) (fv =? 0)%float = true /\
       absent_or_nonnegative peg = true /\
       implb (String.eqb (peg_ratio_source (derived v)) "reported")
             (gt peg 0) = true)
    (apply_valuation df th).
Proof.
  rewrite Forall_forall. intros v Hin. cbv zeta.
  destruct (apply_valuation_row df th v Hin) as [r [_ [Hr Hfv]]].
  rewrite select_fair_value_chain in Hfv. symmetry in Hr.
  destruct (derive_row_columns (groupby_sector_median trailing_pe df)
              (column_median trailing_pe df) r) as [Hpeg _].
  cbv zeta in Hpeg. rewrite Hr, compute_peg_ratio_chain in Hpeg.
  match type of Hfv with
  | _ = fair_value_chain ?g ?t ?te ?tm ?fe ?fm =>
      destruct (fair_value_chain_sign g t te tm fe fm) as [F1 F2];
      cbv zeta in F1, F2; rewrite <- Hfv in F1, F2; cbn [fst snd] in F1, F2
  end.
  destruct (peg_chain_sign (peg_ratio r) (trailing_pe r) (earnings_growth r))
    as [P1 P2].
  cbv zeta in P1, P2. rewrite <- Hpeg in P1, P2. cbn [fst snd] in P1, P2.
  repeat split; try assumption.
  apply nonneg_le_zero, F1.
Qed.

(** C9 as stated fails: for [tiny_row] alone in the frame, the positive
    trailing EPS 1e-200 times the positive sector median 1e-200 rounds to
    the fair value 0, present and not positive, and the classifier
    answers "unknown" through its [fair_value <= 0] test although price
    and fair value are both present; the derived PEG ratio 1e-200 / 1e200
    is 0 as well. *)
Lemma fair_value_zero_counterexample :
  ~ Forall
      (fun v => absent_or_positive (fair_value v) = true /\
                absent_or_positive (peg_ratio (base (derived v))) = true)
      (apply_valuation [tiny_row] default_thresholds)
  /\
  map (fun v => (fair_value v, fair_value_source v,
                 isna (price (base (derived v))), isna (fair_value v),
                 le (fair_value v) 0, valuation v,
                 peg_ratio (base (derived v)), peg_ratio_source (derived v)))
      (apply_valuation [tiny_row] default_thresholds)
  = [(0%float, "sector_median_trailing_pe", false, false, true, "unknown",
      0%float, "derived")].
Proof.
  split.
  - intro H. apply Forall_inv in H. destruct H as [H _].
    vm_compute in H. discriminate H.
  - vm_compute. reflexivity.
Qed.

(** *** The empty frame *)

Lemma absent_medians_hunter_unknown (th : ValuationThresholds) (r : Row) :
  valuation_hunter (value_row th [] nan [] nan (derive_row [] nan r))
  = "unknown".
Proof.
  unfold value_row, derive_row.
  destruct (_compute_peg_ratio r) as [pv ps].
  match goal with
  | |- context [_select_fair_value ?d ?a ?b ?c ?e] =>
      destruct (_select_fair_value d a b c e) as [fv src]
  end.
  cbn [valuation_hunter].
  assert (Hmap : series_map [] (sector r) = nan)
    by (unfold series_map, series_get; destruct (sector r); reflexivity).
  unfold checks_of, hunter_classify.
  cbn [pe_median_used base peg_pass pe_vs_sector_pass margin_of_safety_pass
       existsb].
  rewrite Hmap.
  replace (notna (fillna nan nan)) with false by reflexivity.
  rewrite andb_false_r. cbn [_pass_fail_unknown negb].
  replace (String.eqb "unknown" "unknown") with true by reflexivity.
  rewrite orb_true_r. reflexivity.
Qed.

(** ** Properties of the snapshot normalizer *)

(** *** Ticker text *)

Lemma is_space_upper (c : ascii) : is_space (upper_char c) = is_space c.
Proof. destruct c as [[] [] [] [] [] [] [] []]; reflexivity. Qed.

Lemma is_space_replace_dot (c : ascii) :
  is_space (replace_dot_char c) = is_space c.
Proof. destruct c as [[] [] [] [] [] [] [] []]; reflexivity. Qed.

Lemma upper_replace_dot_stable (c : ascii) :
  replace_dot_char (upper_char (replace_dot_char (upper_char c))) =
  replace_dot_char (upper_char c).
Proof. destruct c as [[] [] [] [] [] [] [] []]; reflexivity. Qed.

Lemma map_chars_empty (f : ascii -> ascii) (s : string) :
  map_chars f s = "" <-> s = "".
Proof. destruct s; simpl; split; intro H; try reflexivity; discriminate H. Qed.

Lemma lstrip_map_chars (f : ascii -> ascii) (s : string) :
  (forall c, is_space (f c) = is_space c) ->
  lstrip (map_chars f s) = map_chars f (lstrip s).
Proof.
  intro Hf. induction s as [|c s IH]; [reflexivity|].
  simpl. rewrite Hf. destruct (is_space c); [exact IH | reflexivity].
Qed.

Lemma rstrip_map_chars (f : ascii -> ascii) (s : string) :
  (forall c, is_space (f c) = is_space c) ->
  rstrip (map_chars f s) = map_chars f (rstrip s).
Proof.
  intro Hf. induction s as [|c s IH]; [reflexivity|].
  simpl. rewrite IH, Hf.
  destruct (rstrip s); simpl; [destruct (is_space c)|]; reflexivity.
Qed.

Lemma strip_map_chars (f : ascii -> ascii) (s : string) :
  (forall c, is_space (f c) = is_space c) ->
  strip (map_chars f s) = map_chars f (strip s).
Proof.
  intro Hf. unfold strip.
  rewrite lstrip_map_chars, rstrip_map_chars by exact Hf. reflexivity.
Qed.

Lemma lstrip_idempotent (s : string) : lstrip (lstrip s) = lstrip s.
Proof.
  induction s as [|c s IH]; [reflexivity|].
  simpl. destruct (is_space c) eqn:E; [exact IH|].
  simpl. rewrite E. reflexivity.
Qed.

Lemma rstrip_idempotent (s : string) : rstrip (rstrip s) = rstrip s.
Proof.
  induction s as [|c s IH]; [reflexivity|].
  simpl. destruct (rstrip s) as [|c' r] eqn:E.
  - destruct (is_space c) eqn:Ec; [reflexivity|].
    simpl. rewrite Ec. reflexivity.
  - cbn [rstrip]. cbn [rstrip] in IH.
    destruct (match rstrip r with
              | "" => if is_space c' then "" else String c' ""
              | String a s0 => String c' (String a s0)
              end); [discriminate IH|].
    rewrite IH. reflexivity.
Qed.

Lemma lstrip_rstrip (s : string) : lstrip (rstrip s) = rstrip (lstrip s).
Proof.
  induction s as [|c s IH]; [reflexivity|].
  simpl. destruct (is_space c) eqn:Ec.
  - rewrite <- IH. destruct (rstrip s); simpl; rewrite ?Ec; reflexivity.
  - simpl. destruct (rstrip s); simpl; rewrite Ec; reflexivity.
Qed.

Lemma strip_idempotent (s : string) : strip (strip s) = strip s.
Proof.
  unfold strip.
  rewrite lstrip_rstrip, lstrip_idempotent, rstrip_idempotent. reflexivity.
Qed.

Lemma map_chars_compose (f g : ascii -> ascii) (s : string) :
  map_chars f (map_chars g s) = map_chars (fun c => f (g c)) s.
Proof. induction s as [|c s IH]; simpl; [|rewrite IH]; reflexivity. Qed.

Lemma map_chars_ext (f g : ascii -> ascii) (s : string) :
  (forall c, f c = g c) -> map_chars f s = map_chars g s.
Proof.
  intro H. induction s as [|c s IH]; simpl; [|rewrite IH, H]; reflexivity.
Qed.

Lemma normalize_ticker_idempotent (c : text) :
  normalize_ticker (Str (normalize_ticker c)) = normalize_ticker c.
Proof.
  unfold normalize_ticker, replace_dot, upper. cbn [astype_str].
  set (s := astype_str c).
  rewrite !map_chars_compose.
  rewrite strip_map_chars
    by (intro a; rewrite is_space_replace_dot; apply is_space_upper).
  rewrite strip_idempotent, map_chars_compose.
  apply map_chars_ext. intro a. apply upper_replace_dot_stable.
Qed.

Lemma normalize_ticker_empty (c : text) :
  normalize_ticker c = "" <-> strip (astype_str c) = "".
Proof.
  unfold normalize_ticker, replace_dot, upper.
  rewrite !map_chars_empty. reflexivity.
Qed.

(** *** Removal of duplicates *)

Lemma text_eqb_eq (a b : text) : text_eqb a b = true <-> a = b.
Proof.
  destruct a as [s| |], b as [s'| |]; simpl; split; intro H;
    try reflexivity; try discriminate H.
  - apply String.eqb_eq in H. subst. reflexivity.
  - injection H as ->. apply String.eqb_refl.
Qed.

Lemma mem_text_In (k : text) (seen : list text) :
  mem_text k seen = true <-> In k seen.
Proof.
  unfold mem_text. rewrite existsb_exists. split.
  - intros [x [Hin Heq]]. apply text_eqb_eq in Heq. subst. exact Hin.
  - intro Hin. exists k. split; [exact Hin | apply text_eqb_eq; reflexivity].
Qed.

Lemma mem_text_not_In (k : text) (seen : list text) :
  mem_text k seen = false <-> ~ In k seen.
Proof.
  rewrite <- mem_text_In. destruct (mem_text k seen); split; intro H;
    try reflexivity; try discriminate; try (intro H'; discriminate H').
  contradiction H; reflexivity.
Qed.

Lemma drop_duplicates_from_In (seen : list text) (df : DataFrame) (x : Row) :
  In x (drop_duplicates_from seen df) -> In x df /\ ~ In (ticker x) seen.
Proof.
  revert seen. induction df as [|r df IH]; intros seen Hin; [destruct Hin|].
  simpl in Hin. destruct (mem_text (ticker r) seen) eqn:E.
  - destruct (IH _ Hin) as [H1 H2]. split; [right; exact H1 | exact H2].
  - destruct Hin as [->|Hin].
    + split; [left; reflexivity | apply mem_text_not_In, E].
    + destruct (IH _ Hin) as [H1 H2]. split; [right; exact H1|].
      intro H. apply H2. right. exact H.
Qed.

Lemma drop_duplicates_from_keeps (seen : list text) (df : DataFrame)
    (k : text) :
  In k (map ticker df) -> ~ In k seen ->
  In k (map ticker (drop_duplicates_from seen df)).
Proof.
  revert seen. induction df as [|r df IH]; intros seen Hin Hseen;
    [destruct Hin|].
  simpl. destruct (mem_text (ticker r) seen) eqn:E.
  - destruct Hin as [Hk|Hin].
    + apply mem_text_In in E. subst k. contradiction.
    + apply IH; assumption.
  - simpl. destruct (text_eqb (ticker r) k) eqn:Ek.
    + left. apply text_eqb_eq, Ek.
    + right. destruct Hin as [Hk|Hin].
      * apply text_eqb_eq in Hk. rewrite Hk in Ek. discriminate Ek.
      * apply IH; [exact Hin|]. intros [H|H]; [|contradiction].
        apply text_eqb_eq in H. rewrite H in Ek. discriminate Ek.
Qed.

Lemma drop_duplicates_from_NoDup (seen : list text) (df : DataFrame) :
  NoDup (map ticker (drop_duplicates_from seen df)).
Proof.
  revert seen. induction df as [|r df IH]; intro seen; [constructor|].
  simpl. destruct (mem_text (ticker r) seen); [apply IH|].
  simpl. constructor; [|apply IH].
  intro Hin. apply in_map_iff in Hin. destruct Hin as [x [Hx Hin]].
  apply drop_duplicates_from_In in Hin. destruct Hin as [_ Hn].
  apply Hn. left. symmetry. exact Hx.
Qed.

Lemma drop_duplicates_from_unique (seen : list text) (df : DataFrame) :
  NoDup (map ticker df) ->
  (forall k, In k (map ticker df) -> ~ In k seen) ->
  drop_duplicates_from seen df = df.
Proof.
  revert seen. induction df as [|r df IH]; intros seen Hnd Hseen;
    [reflexivity|].
  simpl. inversion Hnd as [|? ? Hnotin Hnd']; subst.
  replace (mem_text (ticker r) seen) with false
    by (symmetry; apply mem_text_not_In, Hseen; left; reflexivity).
  f_equal. apply IH; [exact Hnd'|].
  intros k Hk [H|H].
  - subst k. contradiction.
  - apply (Hseen k); [right; exact Hk | exact H].
Qed.

Lemma drop_duplicates_from_first (seen : list text) (df : DataFrame)
    (x : Row) :
  In x (drop_duplicates_from seen df) ->
  find (fun q => text_eqb (ticker q) (ticker x)) df = Some x.
Proof.
  revert seen. induction df as [|r df IH]; intros seen Hin; [destruct Hin|].
  simpl in Hin. simpl. destruct (mem_text (ticker r) seen) eqn:E.
  - destruct (drop_duplicates_from_In _ _ _ Hin) as [_ Hn].
    destruct (text_eqb (ticker r) (ticker x)) eqn:Ex.
    + apply text_eqb_eq in Ex. apply mem_text_In in E.
      rewrite Ex in E. contradiction.
    + apply (IH seen), Hin.
  - destruct Hin as [->|Hin].
    + replace (text_eqb (ticker x) (ticker x)) with true
        by (symmetry; apply text_eqb_eq; reflexivity).
      reflexivity.
    + destruct (drop_duplicates_from_In _ _ _ Hin) as [_ Hn].
      destruct (text_eqb (ticker r) (ticker x)) eqn:Ex.
      * apply text_eqb_eq in Ex. exfalso. apply Hn. left. exact Ex.
      * apply (IH (ticker r :: seen)), Hin.
Qed.

(** *** Value clean-up *)

Lemma replace_inf_idempotent (x : float) :
  replace_inf (replace_inf x) = replace_inf x.
Proof.
  unfold replace_inf.
  destruct ((x =? infinity)%float || (x =? neg_infinity)%float) eqn:E;
    [reflexivity | rewrite E; reflexivity].
Qed.

Lemma nonpositive_to_nan_idempotent (x : float) :
  nonpositive_to_nan (nonpositive_to_nan x) = nonpositive_to_nan x.
Proof.
  unfold nonpositive_to_nan.
  destruct (le x 0) eqn:E; [reflexivity | rewrite E; reflexivity].
Qed.

Lemma clean_amount_idempotent (x : float) :
  nonpositive_to_nan (replace_inf (nonpositive_to_nan (replace_inf x))) =
  nonpositive_to_nan (replace_inf x).
Proof.
  assert (H : replace_inf (nonpositive_to_nan (replace_inf x)) =
              nonpositive_to_nan (replace_inf x)).
  { unfold nonpositive_to_nan.
    destruct (le (replace_inf x) 0);
      [reflexivity | apply replace_inf_idempotent]. }
  rewrite H. apply nonpositive_to_nan_idempotent.
Qed.

Lemma fill_sector_idempotent (c : text) :
  fill_sector (fill_sector c) = fill_sector c.
Proof.
  destruct c as [s| |]; try reflexivity.
  simpl. destruct (String.eqb s "") eqn:E; simpl; [|rewrite E]; reflexivity.
Qed.

Lemma clean_values_idempotent (r : Row) :
  clean_values (clean_values r) = clean_values r.
Proof.
  unfold clean_values. cbn [ticker company sector price market_cap currency
    trailing_pe forward_pe trailing_eps forward_eps earnings_growth peg_ratio
    book_value_per_share target_mean_price].
  rewrite fill_sector_idempotent, !clean_amount_idempotent,
          !replace_inf_idempotent.
  reflexivity.
Qed.

(** *** The ticker stage *)

Lemma filter_all (A : Type) (f : A -> bool) (l : list A) :
  Forall (fun x => f x = true) l -> filter f l = l.
Proof.
  induction 1 as [|x l Hx _ IH]; [reflexivity|].
  simpl. rewrite Hx, IH. reflexivity.
Qed.

Lemma ticker_kept_normalized (r : Row) :
  ticker_kept (normalize_ticker_row r) = nonempty (normalize_ticker (ticker r)).
Proof. reflexivity. Qed.

Lemma filter_tickers_normalized (df : DataFrame) :
  Forall normalized_row (filter_tickers df).
Proof.
  unfold filter_tickers. rewrite Forall_forall. intros x Hin.
  apply filter_In in Hin. destruct Hin as [Hin Hkept].
  apply in_map_iff in Hin. destruct Hin as [r [<- _]].
  rewrite ticker_kept_normalized in Hkept.
  exists (normalize_ticker (ticker r)). split; [reflexivity|]. split.
  - apply normalize_ticker_idempotent.
  - intro H. rewrite H in Hkept. discriminate Hkept.
Qed.

Lemma normalized_row_kept (r : Row) :
  normalized_row r -> ticker_kept r = true.
Proof.
  intros [s [Ht [_ Hne]]]. unfold ticker_kept. rewrite Ht.
  destruct (String.eqb_spec s ""); [contradiction | reflexivity].
Qed.

Lemma normalized_row_fixed (r : Row) :
  normalized_row r -> normalize_ticker_row r = r.
Proof.
  intros [s [Ht [Hs _]]]. unfold normalize_ticker_row.
  rewrite Ht, Hs. destruct r. simpl in Ht. subst. reflexivity.
Qed.

Lemma clean_values_normalized (r : Row) :
  normalized_row r -> normalized_row (clean_values r).
Proof. intro H. exact H. Qed.

Lemma drop_duplicates_normalized (df : DataFrame) :
  Forall normalized_row df -> Forall normalized_row (drop_duplicates df).
Proof.
  rewrite !Forall_forall. intros H x Hin. apply H.
  apply (drop_duplicates_from_In [] df x), Hin.
Qed.

Lemma map_ticker_clean_values (df : DataFrame) :
  map ticker (map clean_values df) = map ticker df.
Proof. rewrite map_map. reflexivity. Qed.

Lemma filter_tickers_first (k : string) (df : DataFrame) :
  k <> "" ->
  find (fun q => text_eqb (ticker q) (Str k)) (filter_tickers df) =
  option_map normalize_ticker_row (first_with_ticker k df).
Proof.
  intro Hk. unfold filter_tickers, first_with_ticker.
  induction df as [|a df IH]; [reflexivity|].
  cbn [map filter find]. rewrite ticker_kept_normalized. unfold nonempty.
  destruct (String.eqb_spec (normalize_ticker (ticker a)) "") as [E|E];
    cbn [negb].
  - rewrite E. destruct (String.eqb_spec "" k) as [E'|_];
      [contradiction Hk; symmetry; exact E' | exact IH].
  - cbn [find]. unfold normalize_ticker_row at 1.
    cbn [ticker set_ticker text_eqb].
    destruct (String.eqb (normalize_ticker (ticker a)) k);
      [reflexivity | exact IH].
Qed.

Lemma cleanse_rows_normalized (df : DataFrame) :
  Forall normalized_row (drop_duplicates (filter_tickers df)).
Proof. apply drop_duplicates_normalized, filter_tickers_normalized. Qed.

(** C6: normalization is idempotent: cleansing a cleansed frame returns
    it unchanged. *)
Theorem cleanse_fundamentals_idempotent (df : DataFrame) :
  cleanse_fundamentals (cleanse_fundamentals df) = cleanse_fundamentals df.
Proof.
  unfold cleanse_fundamentals at 1.
  unfold cleanse_fundamentals.
  set (X := drop_duplicates (filter_tickers df)).
  assert (HX : Forall normalized_row X) by apply cleanse_rows_normalized.
  assert (HC : Forall normalized_row (map clean_values X)).
  { rewrite Forall_forall in *. intros x Hin.
    apply in_map_iff in Hin. destruct Hin as [r [<- Hr]].
    apply clean_values_normalized, HX, Hr. }
  assert (Hnorm : filter_tickers (map clean_values X) = map clean_values X).
  { unfold filter_tickers.
    replace (map normalize_ticker_row (map clean_values X))
      with (map clean_values X).
    - apply filter_all. rewrite Forall_forall in *. intros x Hin.
      apply normalized_row_kept, HC, Hin.
    - rewrite <- (map_id (map clean_values X)) at 1.
      apply map_ext_in. intros x Hin. symmetry.
      rewrite Forall_forall in HC. apply normalized_row_fixed, HC, Hin. }
  rewrite Hnorm. unfold drop_duplicates at 1.
  rewrite drop_duplicates_from_unique.
  - rewrite map_map. apply map_ext. intro r. apply clean_values_idempotent.
  - rewrite map_ticker_clean_values. apply drop_duplicates_from_NoDup.
  - intros k _ H. destruct H.
Qed.

Lemma filter_tickers_tickers (df : DataFrame) (k : text) :
  In k (map ticker (filter_tickers df)) <->
  exists s, k = Str s /\ nonempty s = true /\
            In s (map (fun r => normalize_ticker (ticker r)) df).
Proof.
  unfold filter_tickers. split.
  - intro H. apply in_map_iff in H. destruct H as [x [Hx Hin]].
    apply filter_In in Hin. destruct Hin as [Hin Hkept].
    apply in_map_iff in Hin. destruct Hin as [r [<- Hr]].
    rewrite ticker_kept_normalized in Hkept.
    exists (normalize_ticker (ticker r)). subst k. repeat split.
    + exact Hkept.
    + apply in_map_iff. exists r. split; [reflexivity | exact Hr].
  - intros [s [-> [Hne Hin]]]. apply in_map_iff in Hin.
    destruct Hin as [r [<- Hr]]. apply in_map_iff.
    exists (normalize_ticker_row r). split; [reflexivity|].
    apply filter_In. split.
    + apply in_map, Hr.
    + rewrite ticker_kept_normalized. exact Hne.
Qed.

Lemma NoDup_map_Str (l : list string) : NoDup l -> NoDup (map Str l).
Proof.
  induction 1 as [|s l Hs _ IH]; simpl; constructor; [|exact IH].
  intro Hin. apply in_map_iff in Hin. destruct Hin as [s' [E Hin]].
  injection E as ->. contradiction.
Qed.

Lemma cleanse_row_count (df : DataFrame) :
  length (cleanse_fundamentals df) =
  length (filter nonempty (distinct_normalized_tickers df)).
Proof.
  unfold cleanse_fundamentals, distinct_normalized_tickers.
  rewrite length_map.
  rewrite <- (length_map ticker (drop_duplicates (filter_tickers df))).
  rewrite <- (length_map Str
                (filter nonempty
                   (nodup string_dec
                      (map (fun r => normalize_ticker (ticker r)) df)))).
  apply Permutation_length, NoDup_Permutation.
  - apply drop_duplicates_from_NoDup.
  - apply NoDup_map_Str, NoDup_filter, NoDup_nodup.
  - intro k. split.
    + intro H. apply in_map_iff in H. destruct H as [x [Hx Hin]].
      apply drop_duplicates_from_In in Hin. destruct Hin as [Hin _].
      assert (Hk : In k (map ticker (filter_tickers df)))
        by (subst k; apply in_map, Hin).
      apply filter_tickers_tickers in Hk. destruct Hk as [s [-> [Hne Hs]]].
      apply in_map, filter_In. split; [|exact Hne].
      apply nodup_In, Hs.
    + intro H. apply in_map_iff in H. destruct H as [s [<- Hin]].
      apply filter_In in Hin. destruct Hin as [Hin Hne].
      apply nodup_In in Hin.
      apply drop_duplicates_from_keeps; [|intros []].
      apply filter_tickers_tickers. exists s. repeat split; assumption.
Qed.

Lemma cleanse_row_first (df : DataFrame) (x : Row) :
  In x (cleanse_fundamentals df) ->
  exists k r, ticker x = Str k /\ k <> "" /\
              first_with_ticker k df = Some r /\
              x = clean_values (normalize_ticker_row r).
Proof.
  unfold cleanse_fundamentals. intro Hin.
  apply in_map_iff in Hin. destruct Hin as [y [<- Hy]].
  pose proof (cleanse_rows_normalized df) as HX.
  rewrite Forall_forall in HX. destruct (HX y Hy) as [k [Hk [_ Hne]]].
  apply drop_duplicates_from_first in Hy. rewrite Hk in Hy.
  rewrite (filter_tickers_first k df Hne) in Hy.
  destruct (first_with_ticker k df) as [r|] eqn:Hfirst; [|discriminate Hy].
  injection Hy as <-. exists k, r.
  split; [exact Hk|]. split; [exact Hne|]. split; [exact Hfirst|reflexivity].
Qed.

(** C7, as the code has it: the cleansed frame has as many rows as there
    are distinct non-empty normalized tickers in the input; each of its
    rows comes from the first input row, in input order, with that
    normalized ticker; its tickers are non-empty strings and pairwise
    distinct. *)
Theorem cleanse_dedup_first_occurrence (df : DataFrame) :
  length (cleanse_fundamentals df) =
    length (filter nonempty (distinct_normalized_tickers df)) /\
  Forall
    (fun x => exists k r,
       ticker x = Str k /\ k <> "" /\
       first_with_ticker k df = Some r /\
       x = clean_values (normalize_ticker_row r))
    (cleanse_fundamentals df) /\
  NoDup (map ticker (cleanse_fundamentals df)).
Proof.
  split; [apply cleanse_row_count|]. split.
  - rewrite Forall_forall. intros x Hin. apply cleanse_row_first, Hin.
  - unfold cleanse_fundamentals. rewrite map_ticker_clean_values.
    apply drop_duplicates_from_NoDup.
Qed.

(** C7 as stated fails on a frame that holds an empty ticker: the one row
    is dropped, yet the empty string counts as one distinct normalized
    ticker. *)
Lemma cleanse_row_count_counterexample :
  length (cleanse_fundamentals [blank_row (Str "")]) = 0 /\
  length (distinct_normalized_tickers [blank_row (Str "")]) = 1 /\
  length (cleanse_fundamentals [blank_row (Str "")]) <>
  length (distinct_normalized_tickers [blank_row (Str "")]).
Proof.
  repeat split; try reflexivity. vm_compute. discriminate.
Qed.

Lemma find_app (A : Type) (p : A -> bool) (l1 l2 : list A) :
  find p (l1 ++ l2) =
  match find p l1 with
  | Some x => Some x
  | None => find p l2
  end.
Proof.
  induction l1 as [|a l1 IH]; [reflexivity|].
  cbn [app find]. destruct (p a); [reflexivity | exact IH].
Qed.

Lemma drop_duplicates_from_keeps_first (seen : list text) (df : DataFrame)
    (k : text) (x : Row) :
  find (fun q => text_eqb (ticker q) k) df = Some x -> ~ In k seen ->
  In x (drop_duplicates_from seen df).
Proof.
  revert seen. induction df as [|a df IH]; intros seen Hfind Hseen;
    [discriminate Hfind|].
  cbn [find] in Hfind. cbn [drop_duplicates_from].
  destruct (text_eqb (ticker a) k) eqn:Ek.
  - injection Hfind as <-. apply text_eqb_eq in Ek.
    replace (mem_text (ticker a) seen) with false
      by (symmetry; apply mem_text_not_In; rewrite Ek; exact Hseen).
    left. reflexivity.
  - destruct (mem_text (ticker a) seen); [apply IH; assumption|].
    right. apply IH; [exact Hfind|]. intros [H|H]; [|contradiction].
    apply text_eqb_eq in H. rewrite H in Ek. discriminate Ek.
Qed.

Lemma cleanse_keeps_first (k : string) (df : DataFrame) (r : Row) :
  k <> "" -> first_with_ticker k df = Some r ->
  In (clean_values (normalize_ticker_row r)) (cleanse_fundamentals df).
Proof.
  intros Hk Hfirst. unfold cleanse_fundamentals. apply in_map.
  apply (drop_duplicates_from_keeps_first [] _ (Str k)); [|intros []].
  rewrite (filter_tickers_first k df Hk), Hfirst. reflexivity.
Qed.




(** ** Worked examples of the specification *)

Example normalize_brk_b : normalize_ticker (Str " brk.b ") = "BRK-B".
Proof. reflexivity. Qed.

Example graham_value_5_20 (t c s : text) (p mc : float) (cur : text)
    (tpe fpe feps eg peg tmp : float) :
  _compute_graham_value (mkRow t c s p mc cur tpe fpe 5 feps eg peg 20 tmp)
  = PrimFloat.sqrt 2250.
Proof. vm_compute. reflexivity. Qed.

Example all_absent_row_unknown :
  map (fun v => (isna (graham_value (derived v)), isna (fair_value v),
                 fair_value_source v, isna (margin_of_safety v),
                 checks v, valuation_hunter v, valuation v))
      (apply_valuation [blank_row (Str "ABCD")] default_thresholds)
  = [(true, true, "missing", true,
      mkChecks "unknown" "unknown" "unknown", "unknown", "unknown")].
Proof. vm_compute. reflexivity. Qed.

Example dedup_keeps_first :
  map (fun r => (ticker r, company r))
      (cleanse_fundamentals
         [mkRow (Str "brk.b") (Str "first") (Str "") 1 1 (Str "") nan nan nan
                nan nan nan nan nan;
          mkRow (Str " ") (Str "blank") (Str "") 1 1 (Str "") nan nan nan
                nan nan nan nan nan;
          mkRow (Str "BRK-B ") (Str "second") (Str "") 1 1 (Str "") nan nan
                nan nan nan nan nan nan])
  = [(Str "BRK-B", Str "first")].
Proof. vm_compute. reflexivity. Qed.

(** * Properties of the rest of the pipeline *)

(** ** Further properties of [apply_valuation] *)

Lemma apply_valuation_In (df : DataFrame) (th : ValuationThresholds)
    (v : ValuedRow) :
  In v (apply_valuation df th) ->
  exists r, In r df /\
    v = value_row th
          (groupby_sector_median trailing_pe df) (column_median trailing_pe df)
          (groupby_sector_median forward_pe df) (column_median forward_pe df)
          (derive_row (groupby_sector_median trailing_pe df)
                      (column_median trailing_pe df) r).
Proof.
  unfold apply_valuation. intro Hin.
  apply in_map_iff in Hin. destruct Hin as [d [Hv Hd]].
  apply in_map_iff in Hd. destruct Hd as [r [Hr Hin]].
  exists r. split; [exact Hin|]. rewrite Hr. symmetry. exact Hv.
Qed.

Lemma value_row_fields (th : ValuationThresholds) (smpe : Series)
    (ompe : float) (smfpe : Series) (omfpe : float) (d : DerivedRow) :
  let v := value_row th smpe ompe smfpe omfpe d in
  derived v = d /\
  margin_of_safety v = margin_of_safety_of (graham_value d) (price (base d)) /\
  checks v = checks_of th d (margin_of_safety v) /\
  valuation_hunter v = hunter_classify (checks v) /\
  valuation v = classify th (price (base d)) (fair_value v) /\
  pct_diff v = ((price (base d) - fair_value v) / fair_value v)%float.
Proof.
  unfold value_row.
  destruct (_select_fair_value d smpe ompe smfpe omfpe) as [fv src].
  simpl. repeat split; reflexivity.
Qed.

Lemma pass_fail_unknown_tri_state (valid condition : bool) :
  tri_state valid condition (_pass_fail_unknown valid condition).
Proof.
  unfold tri_state, _pass_fail_unknown.
  destruct valid, condition; cbn [negb];
    repeat split; intros; try reflexivity; try discriminate;
    try (destruct H; discriminate).
Qed.

Lemma value_row_checks (th : ValuationThresholds) (smpe : Series)
    (ompe : float) (smfpe : Series) (omfpe : float) (d : DerivedRow) :
  let v := value_row th smpe ompe smfpe omfpe d in
  tri_state (notna (peg_ratio (base d)) && gt (peg_ratio (base d)) 0)
            (lt (peg_ratio (base d)) (peg_max th))
            (peg_pass (checks v)) /\
  tri_state (notna (trailing_pe (base d)) && notna (pe_median_used d))
            (le (trailing_pe (base d))
                (pe_median_used d * pe_sector_max_mult th)%float)
            (pe_vs_sector_pass (checks v)) /\
  tri_state (notna (margin_of_safety v))
            (ge (margin_of_safety v) (margin_of_safety_min th))
            (margin_of_safety_pass (checks v)).
Proof.
  destruct (value_row_fields th smpe ompe smfpe omfpe d) as [_ [_ [Hc _]]].
  cbv zeta in *. rewrite Hc. unfold checks_of.
  cbn [peg_pass pe_vs_sector_pass margin_of_safety_pass].
  split; [|split]; apply pass_fail_unknown_tri_state.
Qed.

(** X1: the three checks of every row are three-valued as
    [_pass_fail_unknown] makes them: the PEG check is "unknown" exactly
    when the PEG ratio is absent or not positive, the PE check exactly
    when the trailing PE or the median used is absent, the margin check
    exactly when the margin of safety is absent; otherwise each is "pass"
    when its comparison holds and "fail" when it does not. *)
Theorem checks_are_tri_state (df : DataFrame) (th : ValuationThresholds) :
  Forall
    (fun v =>
       let d := derived v in
       let peg := peg_ratio (base d) in
       let pe := trailing_pe (base d) in
       tri_state (notna peg && gt peg 0) (lt peg (peg_max th))
                 (peg_pass (checks v)) /\
       tri_state (notna pe && notna (pe_median_used d))
                 (le pe (pe_median_used d * pe_sector_max_mult th)%float)
                 (pe_vs_sector_pass (checks v)) /\
       tri_state (notna (margin_of_safety v))
                 (ge (margin_of_safety v) (margin_of_safety_min th))
                 (margin_of_safety_pass (checks v)))
    (apply_valuation df th).
Proof.
  rewrite Forall_forall. intros v Hin.
  destruct (apply_valuation_In df th v Hin) as [r [_ Hv]].
  match type of Hv with
  | v = value_row ?th ?a ?b ?c ?e ?d =>
      pose proof (value_row_checks th a b c e d) as Hchecks;
      destruct (value_row_fields th a b c e d) as [Hd _]
  end.
  cbv zeta in Hd, Hchecks. rewrite <- Hv in Hd, Hchecks.
  cbv zeta. rewrite Hd. exact Hchecks.
Qed.

Lemma isna_sub_l (x y : float) : isna x = true -> isna (x - y)%float = true.
Proof.
  rewrite !isna_spec, sub_spec. intro H. rewrite H. reflexivity.
Qed.

Lemma isna_div_r (x y : float) : isna y = true -> isna (x / y)%float = true.
Proof.
  rewrite !isna_spec, div_spec. intro H. rewrite H.
  unfold SF64div, SFdiv. destruct (Prim2SF x); reflexivity.
Qed.

Lemma isna_mul_l (x y : float) : isna x = true -> isna (x * y)%float = true.
Proof.
  rewrite !isna_spec, mul_spec. intro H. rewrite H. reflexivity.
Qed.

Lemma le_not_nan (x y : float) :
  le x y = true -> notna x = true /\ notna y = true.
Proof.
  unfold le, notna. rewrite FloatAxioms.leb_spec. intro H.
  split.
  - destruct (isna x) eqn:E; [|reflexivity].
    apply isna_spec in E. rewrite E in H. discriminate H.
  - destruct (isna y) eqn:E; [|reflexivity].
    apply isna_spec in E. rewrite E in H. unfold SFleb in H.
    destruct (Prim2SF x); discriminate H.
Qed.

Lemma margin_of_safety_present (g p : float) :
  notna (margin_of_safety_of g p) = true ->
  gt g 0 = true /\ notna p = true.
Proof.
  unfold margin_of_safety_of. destruct (gt g 0) eqn:Hg.
  - intro H. split; [reflexivity|].
    unfold notna in *. destruct (isna p) eqn:Hp; [|reflexivity].
    rewrite (isna_div_l _ _ (isna_sub_r g p Hp)) in H. discriminate H.
  - intro H. discriminate H.
Qed.

(** X2: a row passes the 1-1-1 screen exactly when its PEG ratio lies
    strictly between 0 and [peg_max], its trailing PE is at most the
    median used times [pe_sector_max_mult], its Graham value is positive,
    its price is present and its margin of safety is at least
    [margin_of_safety_min]. *)
Theorem hunter_pass_means (df : DataFrame) (th : ValuationThresholds) :
  Forall
    (fun v =>
       let d := derived v in
       valuation_hunter v = "pass" <->
       (gt (peg_ratio (base d)) 0 = true /\
        lt (peg_ratio (base d)) (peg_max th) = true /\
        le (trailing_pe (base d))
           (pe_median_used d * pe_sector_max_mult th)%float = true /\
        gt (graham_value d) 0 = true /\
        notna (price (base d)) = true /\
        ge (margin_of_safety v) (margin_of_safety_min th) = true))
    (apply_valuation df th).
Proof.
  rewrite Forall_forall. intros v Hin.
  destruct (apply_valuation_In df th v Hin) as [r [_ Hv]].
  match type of Hv with
  | v = value_row ?th ?a ?b ?c ?e ?d =>
      pose proof (value_row_checks th a b c e d) as Hchecks;
      destruct (value_row_fields th a b c e d) as [Hd [Hm [_ [Hh _]]]]
  end.
  cbv zeta in Hd, Hm, Hh, Hchecks. rewrite <- Hv in Hd, Hm, Hh, Hchecks.
  rewrite <- Hd in Hm, Hchecks.
  destruct Hchecks as [[_ [Hpeg _]] [[_ [Hpe _]] [_ [Hmos _]]]].
  cbv zeta.
  pose proof (hunter_classify_spec (checks v)) as [Hunk [Hknown _]].
  rewrite <- Hh in Hunk, Hknown.
  split.
  - intro Hpass.
    assert (Hnot : ~ any_unknown (checks v)).
    { intro Hany. rewrite (Hunk Hany) in Hpass. discriminate Hpass. }
    destruct (Hknown Hnot) as [Hiff _]. apply Hiff in Hpass.
    destruct Hpass as [P1 [P2 P3]].
    apply Hpeg in P1. apply Hpe in P2. apply Hmos in P3.
    destruct P1 as [V1 C1], P2 as [V2 C2], P3 as [V3 C3].
    apply andb_true_iff in V1. destruct V1 as [_ V1].
    rewrite Hm in V3. apply margin_of_safety_present in V3.
    destruct V3 as [G P].
    repeat split; assumption.
  - intros [C1 [C1' [C2 [G [P C3]]]]].
    assert (P1 : peg_pass (checks v) = "pass").
    { apply Hpeg. split; [|exact C1'].
      rewrite (gt_not_nan _ _ C1), C1. reflexivity. }
    assert (P2 : pe_vs_sector_pass (checks v) = "pass").
    { apply Hpe. split; [|exact C2].
      destruct (le_not_nan _ _ C2) as [N1 N2]. rewrite N1. cbn [andb].
      unfold notna in *. destruct (isna (pe_median_used (derived v))) eqn:E;
        [|reflexivity].
      rewrite (isna_mul_l _ _ E) in N2. discriminate N2. }
    assert (P3 : margin_of_safety_pass (checks v) = "pass").
    { apply Hmos. split; [|exact C3].
      unfold ge in C3. apply le_not_nan in C3. apply C3. }
    assert (Hnot : ~ any_unknown (checks v)).
    { unfold any_unknown. rewrite P1, P2, P3.
      intros [H|[H|H]]; discriminate H. }
    destruct (Hknown Hnot) as [Hiff _]. apply Hiff.
    repeat split; assumption.
Qed.

(** X3: the aggregate verdict of a row is "unknown" exactly when one of
    its three checks cannot be evaluated: the PEG ratio is absent or not
    positive, the trailing PE or the median used is absent, or the margin
    of safety is absent; in particular whenever the Graham value is not
    positive or the price is absent. *)
Theorem hunter_unknown_means (df : DataFrame) (th : ValuationThresholds) :
  Forall
    (fun v =>
       let d := derived v in
       (valuation_hunter v = "unknown" <->
        (notna (peg_ratio (base d)) && gt (peg_ratio (base d)) 0 = false \/
         notna (trailing_pe (base d)) && notna (pe_median_used d) = false \/
         isna (margin_of_safety v) = true)) /\
       (gt (graham_value d) 0 = false \/ isna (price (base d)) = true ->
        valuation_hunter v = "unknown"))
    (apply_valuation df th).
Proof.
  rewrite Forall_forall. intros v Hin.
  destruct (apply_valuation_In df th v Hin) as [r [_ Hv]].
  match type of Hv with
  | v = value_row ?th ?a ?b ?c ?e ?d =>
      pose proof (value_row_checks th a b c e d) as Hchecks;
      destruct (value_row_fields th a b c e d) as [Hd [Hm [_ [Hh _]]]]
  end.
  cbv zeta in Hd, Hm, Hh, Hchecks. rewrite <- Hv in Hd, Hm, Hh, Hchecks.
  rewrite <- Hd in Hm, Hchecks.
  destruct Hchecks as [[Hpeg _] [[Hpe _] [Hmos _]]].
  pose proof (hunter_classify_spec (checks v)) as [Hunk [Hknown _]].
  rewrite <- Hh in Hunk, Hknown. cbv zeta.
  assert (Hiff : valuation_hunter v = "unknown" <->
                 any_unknown (checks v)).
  { split; [|exact Hunk]. intro Hu.
    destruct (String.eqb_spec (peg_pass (checks v)) "unknown") as [U1|U1];
      [left; exact U1|].
    destruct (String.eqb_spec (pe_vs_sector_pass (checks v)) "unknown")
      as [U2|U2]; [right; left; exact U2|].
    destruct (String.eqb_spec (margin_of_safety_pass (checks v)) "unknown")
      as [U3|U3]; [right; right; exact U3|].
    exfalso.
    assert (Hnot : ~ any_unknown (checks v))
      by (intros [H|[H|H]]; contradiction).
    destruct (Hknown Hnot) as [Hp Hf].
    destruct (String.eqb_spec (valuation_hunter v) "pass") as [P|P].
    - rewrite Hu in P. discriminate P.
    - assert (Hall : ~ all_pass (checks v))
        by (intro Hall; apply P, Hp, Hall).
      rewrite (Hf Hall) in Hu. discriminate Hu. }
  assert (Hchar : any_unknown (checks v) <->
            (notna (peg_ratio (base (derived v)))
             && gt (peg_ratio (base (derived v))) 0 = false \/
             notna (trailing_pe (base (derived v)))
             && notna (pe_median_used (derived v)) = false \/
             isna (margin_of_safety v) = true)).
  { assert (Hn : notna (margin_of_safety v) = false <->
                 isna (margin_of_safety v) = true).
    { unfold notna. destruct (isna (margin_of_safety v)); cbn [negb];
        split; intro H; try reflexivity; discriminate H. }
    unfold any_unknown. rewrite Hpeg, Hpe, Hmos, Hn. tauto. }
  split.
  - rewrite Hiff. exact Hchar.
  - intro Hcase. apply Hiff, Hchar. right; right. rewrite Hm.
    destruct Hcase as [Hg|Hp].
    + unfold margin_of_safety_of. rewrite Hg. reflexivity.
    + apply margin_of_safety_absent_price, Hp.
Qed.

(** X4: when the price or the fair value of a row is absent, its
    [pct_diff] is absent and its valuation is "unknown". *)
Theorem pct_diff_absent (df : DataFrame) (th : ValuationThresholds) :
  Forall
    (fun v =>
       isna (price (base (derived v))) = true \/ isna (fair_value v) = true ->
       isna (pct_diff v) = true /\ valuation v = "unknown")
    (apply_valuation df th).
Proof.
  rewrite Forall_forall. intros v Hin Hcase.
  destruct (apply_valuation_In df th v Hin) as [r [_ Hv]].
  match type of Hv with
  | v = value_row ?th ?a ?b ?c ?e ?d =>
      destruct (value_row_fields th a b c e d) as [Hd [_ [_ [_ [Hval Hpct]]]]]
  end.
  cbv zeta in Hd, Hval, Hpct. rewrite <- Hv in Hd, Hval, Hpct.
  rewrite <- Hd in Hval, Hpct. rewrite Hpct, Hval. split.
  - destruct Hcase as [Hp|Hf].
    + apply isna_div_l, isna_sub_l, Hp.
    + apply isna_div_r, Hf.
  - unfold classify. destruct Hcase as [H|H]; rewrite H;
      rewrite ?orb_true_r; reflexivity.
Qed.

Lemma fillna_series_map (s : Series) (key : text) (overall : float) :
  fillna (series_map s key) overall = usable_multiple (series_get s key) overall.
Proof.
  unfold fillna, series_map, usable_multiple, notna.
  destruct (series_get s key) as [v|]; [|reflexivity].
  destruct (isna v); reflexivity.
Qed.

Lemma fair_value_chain_trailing (g t te tm fe fm : float) :
  snd (fair_value_chain g t te tm fe fm) = "sector_median_trailing_pe" ->
  fst (fair_value_chain g t te tm fe fm) = (te * tm)%float.
Proof.
  unfold fair_value_chain. cbn [first_match].
  destruct (present_pos g); [intro H; discriminate H|].
  destruct (present_pos t); [intro H; discriminate H|].
  destruct (present_pos te && present_pos tm); [reflexivity|].
  destruct (present_pos fe && present_pos fm); intro H; discriminate H.
Qed.

(** X5: the median a row is checked against, [pe_median_used], is the
    multiple the fair-value chain uses: the median trailing PE of the
    row's sector, or the overall median when that is absent; so a fair
    value with source "sector_median_trailing_pe" is the trailing EPS
    times [pe_median_used]. *)
Theorem pe_median_used_is_fair_value_multiple (df : DataFrame)
    (th : ValuationThresholds) :
  Forall
    (fun v =>
       let d := derived v in
       pe_median_used d =
         usable_multiple
           (series_get (groupby_sector_median trailing_pe df) (sector (base d)))
           (column_median trailing_pe df) /\
       (fair_value_source v = "sector_median_trailing_pe" ->
        fair_value v = (trailing_eps (base d) * pe_median_used d)%float))
    (apply_valuation df th).
Proof.
  rewrite Forall_forall. intros v Hin.
  destruct (apply_valuation_row df th v Hin) as [r [_ [Hd Hfv]]].
  destruct (derive_row_columns (groupby_sector_median trailing_pe df)
              (column_median trailing_pe df) r) as [_ [_ [Hbase [_ Hused]]]].
  cbv zeta in Hbase, Hused. rewrite <- Hd in Hbase, Hused.
  assert (Hsector : sector (base (derived v)) = sector r)
    by (rewrite Hbase; reflexivity).
  cbv zeta. rewrite Hused, fillna_series_map, Hsector. split; [reflexivity|].
  rewrite select_fair_value_chain in Hfv. rewrite Hsector in Hfv.
  intro Hsrc.
  assert (Hsnd : fair_value_source v = snd (fair_value v, fair_value_source v))
    by reflexivity.
  assert (Hfst : fair_value v = fst (fair_value v, fair_value_source v))
    by reflexivity.
  rewrite Hfv in Hsnd, Hfst. rewrite Hsnd in Hsrc.
  rewrite Hfst. apply fair_value_chain_trailing, Hsrc.
Qed.

(** X6: [apply_valuation] keeps the rows of its input, in order, and
    leaves every input column as it is but [peg_ratio], which it
    overwrites with the PEG ratio it computes; a reported ratio that is
    present and positive is kept. *)
Theorem apply_valuation_keeps_rows (df : DataFrame) (th : ValuationThresholds) :
  map (fun v => base (derived v)) (apply_valuation df th) =
  map (fun r => set_peg_ratio r (fst (_compute_peg_ratio r))) df /\
  map (fun v => base (derived v)) (apply_valuation df th) =
  map (fun r => if present_pos (peg_ratio r) then r
                else set_peg_ratio r (fst (_compute_peg_ratio r))) df.
Proof.
  assert (H1 : map (fun v => base (derived v)) (apply_valuation df th) =
               map (fun r => set_peg_ratio r (fst (_compute_peg_ratio r))) df).
  { rewrite <- (map_map derived base).
    rewrite apply_valuation_derived, map_map. apply map_ext. intro r.
    unfold derive_row. destruct (_compute_peg_ratio r); reflexivity. }
  split; [exact H1|]. rewrite H1. apply map_ext. intro r.
  unfold _compute_peg_ratio, present_pos.
  destruct (notna (peg_ratio r) && gt (peg_ratio r) 0); [|reflexivity].
  destruct r; reflexivity.
Qed.

(** ** Cohort medians *)

Lemma series_lookup_map (f : string -> float) (keys : list string)
    (s : string) :
  series_lookup (map (fun k => (k, f k)) keys) s =
  if in_dec string_dec s keys then Some (f s) else None.
Proof.
  induction keys as [|k keys IH]; [reflexivity|].
  cbn [map series_lookup]. destruct (String.eqb_spec k s) as [E|E].
  - subst k. destruct (in_dec string_dec s (s :: keys)) as [_|N];
      [reflexivity | contradiction N; left; reflexivity].
  - rewrite IH. destruct (in_dec string_dec s keys) as [I|N],
      (in_dec string_dec s (k :: keys)) as [I'|N']; try reflexivity.
    + contradiction N'. right. exact I.
    + destruct I' as [I'|I']; [contradiction | contradiction].
Qed.

Lemma sector_keys_In (df : DataFrame) (s : string) :
  In s (sector_keys df) <-> existsb (in_sector s) df = true.
Proof.
  unfold sector_keys. rewrite nodup_In, in_flat_map, existsb_exists.
  split; intros [r [Hin H]]; exists r; (split; [exact Hin|]).
  - unfold in_sector. destruct (sector r) as [s'| |];
      [|destruct H|destruct H].
    destruct H as [->|[]]. apply text_eqb_eq. reflexivity.
  - unfold in_sector in H. apply text_eqb_eq in H. rewrite H.
    left. reflexivity.
Qed.

Lemma groupby_sector_median_lookup (col : Row -> float) (df : DataFrame)
    (s : string) :
  series_get (groupby_sector_median col df) (Str s) =
  if existsb (in_sector s) df
  then Some (median (map col (filter (in_sector s) df)))
  else None.
Proof.
  unfold groupby_sector_median. cbn [series_get].
  rewrite (series_lookup_map
             (fun k => median (map col (filter (in_sector k) df)))).
  destruct (in_dec string_dec s (sector_keys df)) as [I|N].
  - apply sector_keys_In in I. rewrite I. reflexivity.
  - destruct (existsb (in_sector s) df) eqn:E; [|reflexivity].
    contradiction N. apply sector_keys_In, E.
Qed.

(** *** Sorting of the present values *)

Lemma SFcompare_antisym (x y : spec_float) :
  SFcompare y x = option_map CompOpp (SFcompare x y).
Proof.
  destruct x as [sx|sx| |sx mx ex], y as [sy|sy| |sy my ey];
    try reflexivity; try (destruct sx; reflexivity);
    try (destruct sy; reflexivity); try (destruct sx, sy; reflexivity).
  cbn [SFcompare option_map].
  pose proof (Pos.compare_cont_antisym mx my Eq) as Hm.
  cbn [CompOpp] in Hm.
  destruct sx, sy; try reflexivity;
    rewrite (Z.compare_antisym ex ey);
    destruct (Z.compare ex ey) eqn:E; cbn [CompOpp]; try reflexivity;
    rewrite <- Hm; destruct (Pos.compare_cont Eq mx my); reflexivity.
Qed.

Lemma le_total (x y : float) :
  notna x = true -> notna y = true -> le x y = false -> le y x = true.
Proof.
  unfold le, notna. rewrite !FloatAxioms.leb_spec. unfold SFleb.
  intros Hx Hy. rewrite (SFcompare_antisym (Prim2SF x) (Prim2SF y)).
  assert (Nx : Prim2SF x <> S754_nan).
  { intro E. apply isna_spec in E. rewrite E in Hx. discriminate Hx. }
  assert (Ny : Prim2SF y <> S754_nan).
  { intro E. apply isna_spec in E. rewrite E in Hy. discriminate Hy. }
  destruct (SFcompare (Prim2SF x) (Prim2SF y)) as [[| |]|] eqn:E;
    cbn [option_map CompOpp]; intro H; try reflexivity; try discriminate H.
  destruct (Prim2SF x), (Prim2SF y); try discriminate E;
    try (contradiction Nx; reflexivity); contradiction Ny; reflexivity.
Qed.

Lemma insert_sorted_perm (x : float) (l : list float) :
  Permutation (insert_sorted x l) (x :: l).
Proof.
  induction l as [|y l IH]; [apply Permutation_refl|].
  cbn [insert_sorted]. destruct (le x y); [apply Permutation_refl|].
  apply perm_trans with (y :: x :: l);
    [apply perm_skip, IH | apply perm_swap].
Qed.

Lemma sort_floats_perm (l : list float) : Permutation (sort_floats l) l.
Proof.
  induction l as [|x l IH]; [apply perm_nil|].
  cbn [sort_floats fold_right].
  apply perm_trans with (x :: sort_floats l);
    [apply insert_sorted_perm | apply perm_skip, IH].
Qed.

Lemma insert_sorted_hd (x y : float) (l : list float) :
  Sorted.HdRel (fun a b => le a b = true) y l -> le y x = true ->
  Sorted.HdRel (fun a b => le a b = true) y (insert_sorted x l).
Proof.
  intros Hhd Hyx. destruct l as [|z l]; cbn [insert_sorted].
  - constructor. exact Hyx.
  - destruct (le x z); constructor; [exact Hyx|].
    inversion Hhd; assumption.
Qed.

Lemma insert_sorted_sorted (x : float) (l : list float) :
  notna x = true -> Forall (fun y => notna y = true) l ->
  Sorted.Sorted (fun a b => le a b = true) l ->
  Sorted.Sorted (fun a b => le a b = true) (insert_sorted x l).
Proof.
  intros Hx Hl Hs. induction l as [|y l IH]; cbn [insert_sorted].
  - constructor; constructor.
  - inversion Hl as [|? ? Hy Hl']; subst.
    inversion Hs as [|? ? Hs' Hhd]; subst.
    destruct (le x y) eqn:E.
    + constructor; [exact Hs | constructor; exact E].
    + constructor; [apply IH; assumption|].
      apply insert_sorted_hd; [exact Hhd|].
      apply le_total; assumption.
Qed.

Lemma sort_floats_sorted (l : list float) :
  Forall (fun y => notna y = true) l ->
  Sorted.Sorted (fun a b => le a b = true) (sort_floats l).
Proof.
  induction 1 as [|x l Hx Hl IH]; [constructor|].
  cbn [sort_floats fold_right]. apply insert_sorted_sorted; [exact Hx| |exact IH].
  rewrite Forall_forall in *. intros y Hy. apply Hl.
  apply (Permutation_in _ (sort_floats_perm l)), Hy.
Qed.

(** [median] takes the middle of the present values put in
    increasing order: there is a sorted rearrangement of the non-NaN
    cells of which it is the middle cell for an odd count, the mean of
    the two middle cells for an even count, and NaN for no cell; for an
    odd count the median is therefore one of the present values. *)
Theorem median_of_sorted_present (l : list float) :
  exists v,
    Permutation v (filter notna l) /\
    Sorted.Sorted (fun a b => le a b = true) v /\
    median l =
      (if (length v =? 0)%nat then nan
       else if Nat.even (length v)
            then ((nth (length v / 2 - 1) v nan + nth (length v / 2) v nan)
                  / 2)%float
            else nth (length v / 2) v nan) /\
    (Nat.even (length v) = false ->
     In (median l) (filter notna l) /\ notna (median l) = true).
Proof.
  exists (sort_floats (filter notna l)).
  assert (Hperm : Permutation (sort_floats (filter notna l)) (filter notna l))
    by apply sort_floats_perm.
  split; [exact Hperm|]. split.
  { apply sort_floats_sorted. rewrite Forall_forall. intros y Hy.
    apply filter_In in Hy. apply Hy. }
  unfold median.
  set (v := sort_floats (filter notna l)) in *.
  split; [destruct (length v); reflexivity|].
  intro Hodd. cbv zeta.
  destruct (length v) as [|n] eqn:Hlen; [discriminate Hodd|].
  rewrite Hodd.
  assert (Hin : In (nth (S n / 2) v nan) v).
  { apply nth_In. rewrite Hlen. apply Nat.div_lt; lia. }
  apply (Permutation_in _ Hperm) in Hin. split; [exact Hin|].
  apply filter_In in Hin. apply Hin.
Qed.

(** ** Invariants of the cleansed frame *)

Lemma replace_inf_not_infinite (x : float) :
  not_infinite (replace_inf x) = true.
Proof.
  unfold not_infinite, replace_inf.
  destruct ((x =? infinity)%float || (x =? neg_infinity)%float) eqn:E;
    [reflexivity | rewrite E; reflexivity].
Qed.

Lemma nonpositive_to_nan_not_infinite (x : float) :
  not_infinite x = true -> not_infinite (nonpositive_to_nan x) = true.
Proof.
  intro H. unfold nonpositive_to_nan. destruct (le x 0); [reflexivity | exact H].
Qed.

Lemma not_le_zero_positive (x : float) :
  le x 0 = false -> absent_or_positive x = true.
Proof.
  unfold absent_or_positive, le, gt. intro H.
  destruct (isna x) eqn:Hn; [reflexivity|]. cbn [orb].
  rewrite FloatAxioms.leb_spec in H. rewrite FloatAxioms.ltb_spec.
  rewrite Prim2SF_zero in *. unfold SFleb in H. unfold SFltb.
  rewrite (SFcompare_antisym (Prim2SF x) (S754_zero false)).
  destruct (SFcompare (Prim2SF x) (S754_zero false)) as [[| |]|] eqn:E;
    try discriminate H; [reflexivity|].
  assert (Prim2SF x = S754_nan)
    by (destruct (Prim2SF x); try discriminate E; reflexivity).
  apply isna_spec in H0. rewrite H0 in Hn. discriminate Hn.
Qed.

Lemma nonpositive_to_nan_positive (x : float) :
  absent_or_positive (nonpositive_to_nan x) = true.
Proof.
  unfold nonpositive_to_nan. destruct (le x 0) eqn:E;
    [reflexivity | apply not_le_zero_positive, E].
Qed.

Lemma fill_sector_named (c : text) :
  exists s, fill_sector c = Str s /\ s <> "".
Proof.
  destruct c as [s| |]; cbn [fill_sector];
    try (exists "Unknown"; split; [reflexivity | discriminate]).
  destruct (String.eqb_spec s "") as [E|E].
  - exists "Unknown". split; [reflexivity | discriminate].
  - exists s. split; [reflexivity | exact E].
Qed.

Lemma clean_values_invariants (r : Row) :
  (exists s, sector (clean_values r) = Str s /\ s <> "") /\
  absent_or_positive (price (clean_values r)) = true /\
  absent_or_positive (market_cap (clean_values r)) = true /\
  Forall (fun x => not_infinite x = true) (numeric_cells (clean_values r)).
Proof.
  unfold clean_values, numeric_cells.
  cbn [sector price market_cap trailing_pe forward_pe trailing_eps
       forward_eps earnings_growth peg_ratio book_value_per_share
       target_mean_price].
  split; [apply fill_sector_named|].
  split; [apply nonpositive_to_nan_positive|].
  split; [apply nonpositive_to_nan_positive|].
  repeat constructor;
    try apply nonpositive_to_nan_not_infinite;
    apply replace_inf_not_infinite.
Qed.

Lemma cleanse_sanitizes_rows (df : DataFrame) :
  Forall (fun r => exists s, sector r = Str s /\ s <> "")
         (cleanse_fundamentals df).
Proof.
  unfold cleanse_fundamentals. rewrite Forall_forall. intros r Hin.
  apply in_map_iff in Hin. destruct Hin as [r0 [<- _]].
  apply clean_values_invariants.
Qed.

(** X8: in every row of a cleansed frame the sector is a non-empty
    string, the price and the market cap are absent or strictly positive,
    and no numeric cell is an infinity. *)
Theorem cleanse_sanitizes_values (df : DataFrame) :
  Forall
    (fun r =>
       (exists s, sector r = Str s /\ s <> "") /\
       absent_or_positive (price r) = true /\
       absent_or_positive (market_cap r) = true /\
       Forall (fun x => not_infinite x = true) (numeric_cells r))
    (cleanse_fundamentals df).
Proof.
  unfold cleanse_fundamentals. rewrite Forall_forall. intros r Hin.
  apply in_map_iff in Hin. destruct Hin as [r0 [<- _]].
  apply clean_values_invariants.
Qed.

(** X9: when [apply_valuation] runs on a cleansed frame, the lookup of a
    row's sector among the group medians never misses: the
    [sector_median_pe] cell of every row is the median trailing PE of the
    rows of the cleansed frame that share its sector. *)
Theorem cleansed_sector_median_found (df : DataFrame)
    (th : ValuationThresholds) :
  Forall
    (fun v =>
       exists s,
         sector (base (derived v)) = Str s /\ s <> "" /\
         sector_median_pe_col (derived v) =
           median (map trailing_pe
                       (filter (in_sector s) (cleanse_fundamentals df))))
    (apply_valuation (cleanse_fundamentals df) th).
Proof.
  rewrite Forall_forall. intros v Hin.
  destruct (apply_valuation_row _ th v Hin) as [r [Hr [Hd _]]].
  pose proof (cleanse_sanitizes_rows df) as Hclean.
  rewrite Forall_forall in Hclean.
  destruct (Hclean r Hr) as [s [Hs Hne]].
  destruct (derive_row_columns
              (groupby_sector_median trailing_pe (cleanse_fundamentals df))
              (column_median trailing_pe (cleanse_fundamentals df)) r)
    as [_ [_ [Hbase [Hcol _]]]].
  cbv zeta in Hbase, Hcol. rewrite <- Hd in Hbase, Hcol.
  exists s. split; [rewrite Hbase; exact Hs|]. split; [exact Hne|].
  rewrite Hcol, Hs. unfold series_map.
  rewrite (groupby_sector_median_lookup trailing_pe (cleanse_fundamentals df) s).
  replace (existsb (in_sector s) (cleanse_fundamentals df)) with true;
    [reflexivity|].
  symmetry. apply existsb_exists. exists r. split; [exact Hr|].
  unfold in_sector. rewrite Hs. apply text_eqb_eq. reflexivity.
Qed.

(** ** Ticker snapshots *)

Lemma first_value_find (values : list pyval) :
  _first_value values =
  match find (fun v => negb (is_null v)) values with
  | Some v => v
  | None => PFloat nan
  end.
Proof.
  induction values as [|v values IH]; [reflexivity|].
  cbn [_first_value find]. destruct v as [|f|n|s]; cbn [is_null negb];
    try reflexivity; try exact IH.
  destruct (PrimFloat.is_nan f); cbn [negb]; [exact IH | reflexivity].
Qed.

(** X10: [_first_value] answers the first of its arguments that is
    neither [None] nor NaN, and NaN when there is none; it never answers
    [None], and it answers a null exactly when every argument is null. *)
Theorem first_value_first_present (values : list pyval) :
  _first_value values =
    match find (fun v => negb (is_null v)) values with
    | Some v => v
    | None => PFloat nan
    end /\
  _first_value values <> PNone /\
  (is_null (_first_value values) = true <->
   Forall (fun v => is_null v = true) values).
Proof.
  split; [apply first_value_find|].
  induction values as [|v values [IHn IHiff]].
  - split; [discriminate|]. split; [constructor | reflexivity].
  - cbn [_first_value]. destruct v as [|f|n|s].
    + split; [exact IHn|]. rewrite IHiff. split.
      * intro H. constructor; [reflexivity | exact H].
      * intro H. inversion H; assumption.
    + destruct (PrimFloat.is_nan f) eqn:E.
      * split; [exact IHn|]. rewrite IHiff. split.
        -- intro H. constructor; [exact E | exact H].
        -- intro H. inversion H; assumption.
      * split; [discriminate|]. cbn [is_null]. rewrite E. split.
        -- intro H. discriminate H.
        -- intro H. inversion H as [|? ? Hf _]. cbn [is_null] in Hf.
           rewrite E in Hf. discriminate Hf.
    + split; [discriminate|]. cbn [is_null]. split.
      * intro H. discriminate H.
      * intro H. inversion H as [|? ? Hf _]. discriminate Hf.
    + split; [discriminate|]. cbn [is_null]. split.
      * intro H. discriminate H.
      * intro H. inversion H as [|? ? Hf _]. discriminate Hf.
Qed.

Lemma truthy_py_or (a b : pyval) :
  truthy (py_or a b) = truthy a || truthy b.
Proof. unfold py_or. destruct (truthy a) eqn:E; [exact E | reflexivity]. Qed.

(** X11: when both lookups of a ticker fail, or answer nothing,
    [_fetch_snapshot] still answers a snapshot: the ticker, the company
    "", the sector "Unknown", every numeric field NaN; the currency is
    NaN too, not "", since the NaN [_first_value] falls back on is true
    for [or]. *)
Theorem fetch_snapshot_without_data (float_of_str : string -> option float)
    (info_of fast_info_of : string -> option dict) (t : string) :
  or_empty (info_of t) = [] -> or_empty (fast_info_of t) = [] ->
  _fetch_snapshot float_of_str info_of fast_info_of t =
  mkSnapshot t (PStr "") (PStr "Unknown") nan nan (PFloat nan)
             nan nan nan nan nan nan nan nan.
Proof.
  intros Hi Hf. unfold _fetch_snapshot. rewrite Hi, Hf. reflexivity.
Qed.

Lemma fetch_snapshot_without_data_witness :
  or_empty ((fun _ : string => @None dict) "AAPL") = [] /\
  or_empty ((fun _ : string => Some (@nil (string * pyval))) "AAPL") = [] /\
  _fetch_snapshot (fun _ => None) (fun _ => None) (fun _ => Some []) "AAPL" =
  mkSnapshot "AAPL" (PStr "") (PStr "Unknown") nan nan (PFloat nan)
             nan nan nan nan nan nan nan nan.
Proof.
  split; [reflexivity|]. split; [reflexivity|].
  apply (fetch_snapshot_without_data (fun _ => None) (fun _ => None)
           (fun _ => Some []) "AAPL"); reflexivity.
Defined.

(** X12: whatever the lookups answer, the sector of a snapshot is true
    for Python, so neither [None] nor ""; the company and the currency
    are "" or true, so never [None]; and when neither source has a
    usable currency the currency cell is NaN. *)
Theorem fetch_snapshot_text_cells (float_of_str : string -> option float)
    (info_of fast_info_of : string -> option dict) (t : string) :
  let s := _fetch_snapshot float_of_str info_of fast_info_of t in
  s_ticker s = t /\
  truthy (s_sector s) = true /\
  (s_company s = PStr "" \/ truthy (s_company s) = true) /\
  (s_currency s = PStr "" \/ truthy (s_currency s) = true) /\
  (is_null (dict_get (or_empty (fast_info_of t)) "currency") = true ->
   is_null (dict_get (or_empty (info_of t)) "currency") = true ->
   s_currency s = PFloat nan).
Proof.
  cbv zeta. unfold _fetch_snapshot.
  cbn [s_ticker s_sector s_company s_currency].
  split; [reflexivity|]. split.
  { rewrite truthy_py_or. apply orb_true_r. }
  split.
  { set (name := py_or (dict_get (or_empty (info_of t)) "shortName")
                       (dict_get (or_empty (info_of t)) "longName")).
    unfold py_or. destruct (truthy name) eqn:E;
      [right; exact E | left; reflexivity]. }
  split.
  { set (currency := _first_value
                       [dict_get (or_empty (fast_info_of t)) "currency";
                        dict_get (or_empty (info_of t)) "currency"]).
    unfold py_or. destruct (truthy currency) eqn:E;
      [right; exact E | left; reflexivity]. }
  intros Hf Hi. cbn [_first_value].
  destruct (dict_get (or_empty (fast_info_of t)) "currency") as [|f|n|s];
    try discriminate Hf;
    destruct (dict_get (or_empty (info_of t)) "currency") as [|f'|n'|s'];
    try discriminate Hi; cbn [is_null] in *; rewrite ?Hf, ?Hi; reflexivity.
Qed.

Lemma py_or_text (a b : pyval) :
  (a = PNone \/ exists s, a = PStr s) -> (exists s, b = PStr s) ->
  exists c, py_or a b = PStr c.
Proof.
  intros Ha [s Hb]. unfold py_or. destruct (truthy a) eqn:E.
  - destruct Ha as [Ha|[s' Ha]]; [rewrite Ha in E; discriminate E|].
    exists s'. exact Ha.
  - exists s. exact Hb.
Qed.

Lemma py_or_text_nonempty (a : pyval) (fallback : string) :
  (a = PNone \/ exists s, a = PStr s) -> fallback <> "" ->
  exists c, py_or a (PStr fallback) = PStr c /\ c <> "".
Proof.
  intros Ha Hf. unfold py_or. destruct (truthy a) eqn:E.
  - destruct Ha as [Ha|[s' Ha]]; [rewrite Ha in E; discriminate E|].
    exists s'. split; [exact Ha|]. rewrite Ha in E. cbn [truthy] in E.
    intro Hs. rewrite Hs in E. discriminate E.
  - exists fallback. split; [reflexivity | exact Hf].
Qed.

Lemma row_of_fetched_snapshot (float_of_str : string -> option float)
    (info_of fast_info_of : string -> option dict) (t : string) :
  text_keys_hold_text info_of fast_info_of t ->
  exists r,
    row_of_snapshot (_fetch_snapshot float_of_str info_of fast_info_of t)
      = Some r /\
    ticker r = Str t /\
    (exists c, company r = Str c) /\
    (exists s, sector r = Str s /\ s <> "") /\
    (currency r = NaNText \/ exists c, currency r = Str c).
Proof.
  intros [Hshort [Hlong [Hsector [Hicur Hfcur]]]].
  unfold row_of_snapshot, _fetch_snapshot.
  cbn [s_ticker s_company s_sector s_currency s_price s_market_cap
       s_trailing_pe s_forward_pe s_trailing_eps s_forward_eps
       s_earnings_growth s_peg_ratio s_book_value_per_share
       s_target_mean_price].
  set (info := or_empty (info_of t)) in *.
  set (fast := or_empty (fast_info_of t)) in *.
  unfold text_valued in *.
  assert (Hc : exists c,
             py_or (py_or (dict_get info "shortName") (dict_get info "longName"))
                   (PStr "") = PStr c).
  { apply py_or_text; [|eexists; reflexivity].
    unfold py_or. destruct (truthy (dict_get info "shortName"));
      assumption. }
  assert (Hs : exists s,
             py_or (dict_get info "sector") (PStr "Unknown") = PStr s /\
             s <> "").
  { apply py_or_text_nonempty; [exact Hsector | discriminate]. }
  assert (Hcur : py_or (_first_value [dict_get fast "currency";
                                      dict_get info "currency"]) (PStr "")
                 = PFloat nan \/
                 exists c, py_or (_first_value [dict_get fast "currency";
                                                dict_get info "currency"])
                                 (PStr "") = PStr c).
  { destruct Hfcur as [E|[s E]]; rewrite E; cbn [_first_value].
    - destruct Hicur as [E'|[s' E']]; rewrite E'.
      + left. reflexivity.
      + right. unfold py_or. destruct (truthy (PStr s')); eexists; reflexivity.
    - right. unfold py_or. destruct (truthy (PStr s)); eexists; reflexivity. }
  destruct Hc as [c Hc]. destruct Hs as [s [Hs Hne]].
  rewrite Hc, Hs. cbn [text_of_pyval].
  destruct Hcur as [Hcur|[cur Hcur]]; rewrite Hcur; cbn [text_of_pyval].
  - replace (PrimFloat.is_nan nan) with true by reflexivity.
    eexists. split; [reflexivity|]. cbn [ticker company sector currency].
    repeat split; eauto.
  - eexists. split; [reflexivity|]. cbn [ticker company sector currency].
    repeat split; eauto.
Qed.

(** X13: when the quote service holds text, or nothing, at the keys read
    as text, the snapshots of [fetch_fundamentals] make a frame of typed
    rows: one row per requested ticker, in order, with the ticker as
    given, a company string, a non-empty sector string, and a currency
    that is a string or NaN. *)
Theorem fetched_frame_is_typed (float_of_str : string -> option float)
    (info_of fast_info_of : string -> option dict) (tickers : list string) :
  Forall (text_keys_hold_text info_of fast_info_of) tickers ->
  exists df,
    frame_of_snapshots
      (fetch_fundamentals float_of_str info_of fast_info_of tickers) = Some df /\
    map ticker df = map Str tickers /\
    Forall (fun r =>
              (exists c, company r = Str c) /\
              (exists s, sector r = Str s /\ s <> "") /\
              (currency r = NaNText \/ exists c, currency r = Str c)) df.
Proof.
  induction 1 as [|t tickers Ht _ IH].
  - exists []. repeat split; constructor.
  - destruct IH as [df [Hdf [Htick Hrows]]].
    destruct (row_of_fetched_snapshot float_of_str info_of fast_info_of t Ht)
      as [r [Hr [Hrt Hrest]]].
    exists (r :: df). unfold fetch_fundamentals in *.
    cbn [map frame_of_snapshots]. rewrite Hr, Hdf, Hrt, Htick.
    repeat split; try reflexivity. constructor; assumption.
Qed.

Lemma fetched_frame_is_typed_witness :
  Forall (text_keys_hold_text (fun _ => Some sample_info)
                              (fun _ => Some sample_fast_info)) ["AAPL"] /\
  exists df,
    frame_of_snapshots
      (fetch_fundamentals (fun _ => None) (fun _ => Some sample_info)
                          (fun _ => Some sample_fast_info) ["AAPL"]) = Some df /\
    map ticker df = map Str ["AAPL"] /\
    Forall (fun r =>
              (exists c, company r = Str c) /\
              (exists s, sector r = Str s /\ s <> "") /\
              (currency r = NaNText \/ exists c, currency r = Str c)) df.
Proof.
  assert (H : Forall (text_keys_hold_text (fun _ => Some sample_info)
                        (fun _ => Some sample_fast_info)) ["AAPL"]).
  { constructor; [|constructor].
    unfold text_keys_hold_text, text_valued. cbn.
    repeat split; try (left; reflexivity); right; eexists; reflexivity. }
  split; [exact H|].
  exact (fetched_frame_is_typed (fun _ => None) (fun _ => Some sample_info)
           (fun _ => Some sample_fast_info) ["AAPL"] H).
Defined.

(** ** Ticker lists *)

Lemma normalize_ticker_agrees (raw : string) :
  _normalize_ticker raw = normalize_ticker (Str raw).
Proof.
  unfold _normalize_ticker, normalize_ticker. cbn [astype_str].
  destruct (String.eqb_spec (upper (strip raw)) "") as [E|E];
    [rewrite E|]; reflexivity.
Qed.

(** X14: the ticker lists and the frame are normalized alike:
    [_normalize_ticker] of extract_tickers.py answers what the ticker
    stage of [cleanse_fundamentals] makes of the same text, and applying
    it twice changes nothing more. *)
Theorem normalize_ticker_same_everywhere (raw : string) :
  _normalize_ticker raw = normalize_ticker (Str raw) /\
  _normalize_ticker (_normalize_ticker raw) = _normalize_ticker raw /\
  normalize_ticker (Str (_normalize_ticker raw)) = _normalize_ticker raw.
Proof.
  split; [apply normalize_ticker_agrees|].
  assert (H : _normalize_ticker (_normalize_ticker raw) = _normalize_ticker raw).
  { rewrite !normalize_ticker_agrees. apply normalize_ticker_idempotent. }
  split; [exact H|].
  rewrite <- normalize_ticker_agrees. exact H.
Qed.

Lemma insert_string_perm (x : string) (l : list string) :
  Permutation (insert_string x l) (x :: l).
Proof.
  induction l as [|y l IH]; [apply Permutation_refl|].
  cbn [insert_string]. destruct (String.leb x y); [apply Permutation_refl|].
  apply perm_trans with (y :: x :: l);
    [apply perm_skip, IH | apply perm_swap].
Qed.

Lemma sort_strings_perm (l : list string) :
  Permutation (fold_right insert_string [] l) l.
Proof.
  induction l as [|x l IH]; [apply perm_nil|].
  cbn [fold_right].
  apply perm_trans with (x :: fold_right insert_string [] l);
    [apply insert_string_perm | apply perm_skip, IH].
Qed.

Lemma sorted_set_perm (l : list string) :
  Permutation (sorted_set l) (nodup string_dec l).
Proof. apply sort_strings_perm. Qed.

Lemma sorted_set_In (l : list string) (x : string) :
  In x (sorted_set l) <-> In x l.
Proof.
  split; intro H.
  - apply (nodup_In string_dec).
    apply (Permutation_in _ (sorted_set_perm l)), H.
  - apply (Permutation_in _ (Permutation_sym (sorted_set_perm l))).
    apply (nodup_In string_dec), H.
Qed.

Lemma sorted_set_NoDup (l : list string) : NoDup (sorted_set l).
Proof.
  apply (Permutation_NoDup (Permutation_sym (sorted_set_perm l))).
  apply NoDup_nodup.
Qed.

Lemma string_leb_false (x y : string) :
  String.leb x y = false -> String.leb y x = true.
Proof.
  intro H. destruct (String.leb_total x y) as [E|E];
    [rewrite E in H; discriminate H | exact E].
Qed.

Lemma insert_string_hd (x y : string) (l : list string) :
  Sorted.HdRel (fun a b => String.leb a b = true) y l ->
  String.leb y x = true ->
  Sorted.HdRel (fun a b => String.leb a b = true) y (insert_string x l).
Proof.
  intros Hhd Hyx. destruct l as [|z l]; cbn [insert_string].
  - constructor. exact Hyx.
  - destruct (String.leb x z); constructor; [exact Hyx|].
    inversion Hhd; assumption.
Qed.

Lemma insert_string_sorted (x : string) (l : list string) :
  Sorted.Sorted (fun a b => String.leb a b = true) l ->
  Sorted.Sorted (fun a b => String.leb a b = true) (insert_string x l).
Proof.
  intro Hs. induction l as [|y l IH]; cbn [insert_string].
  - constructor; constructor.
  - inversion Hs as [|? ? Hs' Hhd]; subst.
    destruct (String.leb x y) eqn:E.
    + constructor; [exact Hs | constructor; exact E].
    + constructor; [apply IH; assumption|].
      apply insert_string_hd; [exact Hhd | apply string_leb_false, E].
Qed.

Lemma sort_strings_sorted (l : list string) :
  Sorted.Sorted (fun a b => String.leb a b = true)
                (fold_right insert_string [] l).
Proof.
  induction l as [|x l IH]; [constructor|].
  cbn [fold_right]. apply insert_string_sorted, IH.
Qed.

Lemma leb_neq_ltb (a b : string) :
  String.leb a b = true -> a <> b -> String.ltb a b = true.
Proof.
  unfold String.leb, String.ltb. intros Hle Hne.
  destruct (String.compare a b) eqn:E; try reflexivity; try discriminate Hle.
  apply String.compare_eq_iff in E. contradiction.
Qed.

Lemma sorted_nodup_increasing (l : list string) :
  Sorted.Sorted (fun a b => String.leb a b = true) l -> NoDup l ->
  increasing l.
Proof.
  unfold increasing. induction 1 as [|a l Hs IH Hhd]; intro Hnd;
    [constructor|].
  inversion Hnd as [|? ? Hnotin Hnd']; subst.
  constructor; [apply IH, Hnd'|].
  destruct Hhd as [|b l' Hab]; constructor.
  apply leb_neq_ltb; [exact Hab|].
  intro E. subst b. apply Hnotin. left. reflexivity.
Qed.

Lemma sorted_set_increasing (l : list string) : increasing (sorted_set l).
Proof.
  apply sorted_nodup_increasing;
    [apply sort_strings_sorted | apply sorted_set_NoDup].
Qed.

Lemma column_tickers_normalized (cells : list text) :
  Forall normalized_ticker (column_tickers cells).
Proof.
  unfold column_tickers. rewrite Forall_forall. intros t Hin.
  apply filter_In in Hin. destruct Hin as [Hin Hne].
  apply in_map_iff in Hin. destruct Hin as [c [<- _]].
  rewrite normalize_ticker_agrees in *. split.
  - intro E. rewrite E in Hne. discriminate Hne.
  - apply normalize_ticker_idempotent.
Qed.

Lemma sorted_set_tickers (cells : list text) :
  increasing (sorted_set (column_tickers cells)) /\
  NoDup (sorted_set (column_tickers cells)) /\
  Forall normalized_ticker (sorted_set (column_tickers cells)).
Proof.
  split; [apply sorted_set_increasing|]. split; [apply sorted_set_NoDup|].
  rewrite Forall_forall. intros t Hin.
  apply (proj1 (sorted_set_In _ _)) in Hin.
  pose proof (column_tickers_normalized cells) as H.
  rewrite Forall_forall in H. apply H, Hin.
Qed.

Lemma tickers_from_file_parts (file : option Frame) :
  increasing (_tickers_from_file file) /\
  NoDup (_tickers_from_file file) /\
  Forall normalized_ticker (_tickers_from_file file).
Proof.
  destruct file as [df|]; [|repeat split; constructor].
  cbn [_tickers_from_file].
  destruct (frame_empty df); [repeat split; constructor|].
  apply sorted_set_tickers.
Qed.

(** X15: the tickers read from a file are strictly increasing, hence
    without repetition, each non-empty and unchanged by normalization; a
    missing file and a frame without rows or columns give the empty
    list. *)
Theorem tickers_from_file_sorted (file : option Frame) :
  increasing (_tickers_from_file file) /\
  NoDup (_tickers_from_file file) /\
  Forall normalized_ticker (_tickers_from_file file) /\
  _tickers_from_file None = [] /\
  (forall df, frame_empty df = true -> _tickers_from_file (Some df) = []).
Proof.
  destruct (tickers_from_file_parts file) as [H1 [H2 H3]].
  repeat split; try assumption.
  intros df Hempty. cbn [_tickers_from_file]. rewrite Hempty. reflexivity.
Qed.

Lemma tickers_of_candidates_some (table : Frame) (candidates : list string)
    (l : list string) :
  tickers_of_candidates table candidates = Some l ->
  exists candidate cells,
    In candidate candidates /\
    column_by_key table candidate = Some cells /\
    80 <= length (column_tickers cells) /\
    l = sorted_set (column_tickers cells).
Proof.
  induction candidates as [|c candidates IH]; [intro H; discriminate H|].
  cbn [tickers_of_candidates].
  destruct (column_by_key table c) as [cells|] eqn:Hcol.
  - destruct (80 <=? length (column_tickers cells))%nat eqn:Hlen.
    + intro H. injection H as <-. exists c, cells.
      repeat split; try assumption; [left; reflexivity|].
      apply Nat.leb_le, Hlen.
    + intro H. destruct (IH H) as [c' [cells' [Hin Hrest]]].
      exists c', cells'. split; [right; exact Hin | exact Hrest].
  - intro H. destruct (IH H) as [c' [cells' [Hin Hrest]]].
    exists c', cells'. split; [right; exact Hin | exact Hrest].
Qed.

Lemma tickers_from_wikipedia_source (tables : list Frame) :
  _tickers_from_wikipedia tables = [] \/
  exists table candidate cells,
    In table tables /\
    In candidate ["ticker"; "ticker symbol"; "symbol"] /\
    column_by_key table candidate = Some cells /\
    80 <= length (column_tickers cells) /\
    _tickers_from_wikipedia tables = sorted_set (column_tickers cells).
Proof.
  induction tables as [|table tables IH]; [left; reflexivity|].
  cbn [_tickers_from_wikipedia].
  assert (Hrest : _tickers_from_wikipedia tables = [] \/
            exists table0 candidate cells,
              In table0 (table :: tables) /\
              In candidate ["ticker"; "ticker symbol"; "symbol"] /\
              column_by_key table0 candidate = Some cells /\
              80 <= length (column_tickers cells) /\
              _tickers_from_wikipedia tables =
                sorted_set (column_tickers cells)).
  { destruct IH as [E|[t [c [cells [Hin Hrest]]]]]; [left; exact E|].
    right. exists t, c, cells. split; [right; exact Hin | exact Hrest]. }
  destruct (length table =? 0)%nat; [exact Hrest|].
  destruct (tickers_of_candidates table ["ticker"; "ticker symbol"; "symbol"])
    as [l|] eqn:Hc; [|exact Hrest].
  right. destruct (tickers_of_candidates_some _ _ _ Hc)
    as [c [cells [Hin [Hcol [Hlen Hl]]]]].
  exists table, c, cells. repeat split; try assumption. left. reflexivity.
Qed.

Lemma tickers_from_wikipedia_sorted (tables : list Frame) :
  increasing (_tickers_from_wikipedia tables) /\
  NoDup (_tickers_from_wikipedia tables) /\
  Forall normalized_ticker (_tickers_from_wikipedia tables).
Proof.
  destruct (tickers_from_wikipedia_source tables)
    as [E|[t [c [cells [_ [_ [_ [_ E]]]]]]]]; rewrite E.
  - repeat split; constructor.
  - apply sorted_set_tickers.
Qed.

(** X16: the tickers read from the web page are the empty list, or the
    distinct tickers, in increasing order, of a column labelled "ticker",
    "ticker symbol" or "symbol" that holds at least 80 non-empty tickers.
    The 80 are counted before repetitions are removed: a column of 80
    times the same ticker is accepted and gives a list of one. *)
Theorem tickers_from_wikipedia_threshold :
  (forall tables : list Frame,
     increasing (_tickers_from_wikipedia tables) /\
     (_tickers_from_wikipedia tables = [] \/
      exists table candidate cells,
        In table tables /\
        In candidate ["ticker"; "ticker symbol"; "symbol"] /\
        column_by_key table candidate = Some cells /\
        80 <= length (column_tickers cells) /\
        _tickers_from_wikipedia tables = sorted_set (column_tickers cells))) /\
  _tickers_from_wikipedia [[(" Ticker ", repeat (Str "aapl") 80)]] = ["AAPL"].
Proof.
  split.
  - intro tables. split.
    + apply tickers_from_wikipedia_sorted.
    + apply tickers_from_wikipedia_source.
  - vm_compute. reflexivity.
Qed.

Lemma load_tickers_cases (use_wikipedia : bool)
    (wikipedia : option (list Frame)) (fallback_file : option Frame) :
  match load_nasdaq100_tickers use_wikipedia wikipedia fallback_file with
  | Ok tickers =>
      tickers <> [] /\
      (tickers = wikipedia_tickers use_wikipedia wikipedia \/
       wikipedia_tickers use_wikipedia wikipedia = [] /\
       tickers = _tickers_from_file fallback_file)
  | Raise e =>
      e = RuntimeError /\
      wikipedia_tickers use_wikipedia wikipedia = [] /\
      _tickers_from_file fallback_file = []
  end.
Proof.
  unfold load_nasdaq100_tickers.
  fold (wikipedia_tickers use_wikipedia wikipedia).
  destruct (wikipedia_tickers use_wikipedia wikipedia) as [|t l] eqn:Hw.
  - destruct (_tickers_from_file fallback_file) as [|t l] eqn:Hf.
    + repeat split; reflexivity.
    + split; [discriminate|]. right. split; reflexivity.
  - split; [discriminate|]. left. reflexivity.
Qed.

Lemma wikipedia_tickers_sorted (use_wikipedia : bool)
    (wikipedia : option (list Frame)) :
  increasing (wikipedia_tickers use_wikipedia wikipedia) /\
  NoDup (wikipedia_tickers use_wikipedia wikipedia) /\
  Forall normalized_ticker (wikipedia_tickers use_wikipedia wikipedia).
Proof.
  unfold wikipedia_tickers.
  destruct use_wikipedia; [|repeat split; constructor].
  destruct wikipedia as [tables|]; [|repeat split; constructor].
  apply tickers_from_wikipedia_sorted.
Qed.

Lemma load_tickers_sorted (use_wikipedia : bool)
    (wikipedia : option (list Frame)) (fallback_file : option Frame)
    (tickers : list string) :
  load_nasdaq100_tickers use_wikipedia wikipedia fallback_file = Ok tickers ->
  tickers <> [] /\ increasing tickers /\ NoDup tickers /\
  Forall normalized_ticker tickers.
Proof.
  intro H. pose proof (load_tickers_cases use_wikipedia wikipedia fallback_file)
    as Hc.
  rewrite H in Hc. destruct Hc as [Hne [E|[_ E]]]; (split; [exact Hne|]);
    rewrite E.
  - apply wikipedia_tickers_sorted.
  - destruct (tickers_from_file_parts fallback_file) as [H1 [H2 H3]].
    repeat split; assumption.
Qed.

(** X17: [load_nasdaq100_tickers] never answers an empty list: it answers
    the tickers of the web page when asked to use it and it gives some,
    else those of the file, and raises [RuntimeError] when both are
    empty, a failing page read counting as empty; the list it answers is
    strictly increasing, without repetition, of non-empty normalized
    tickers. *)
Theorem load_tickers_never_empty (use_wikipedia : bool)
    (wikipedia : option (list Frame)) (fallback_file : option Frame) :
  match load_nasdaq100_tickers use_wikipedia wikipedia fallback_file with
  | Ok tickers =>
      tickers <> [] /\ increasing tickers /\ NoDup tickers /\
      Forall normalized_ticker tickers /\
      (tickers = wikipedia_tickers use_wikipedia wikipedia \/
       wikipedia_tickers use_wikipedia wikipedia = [] /\
       tickers = _tickers_from_file fallback_file)
  | Raise e =>
      e = RuntimeError /\
      wikipedia_tickers use_wikipedia wikipedia = [] /\
      _tickers_from_file fallback_file = []
  end.
Proof.
  pose proof (load_tickers_cases use_wikipedia wikipedia fallback_file) as Hc.
  destruct (load_nasdaq100_tickers use_wikipedia wikipedia fallback_file)
    as [tickers|e] eqn:Hload; [|exact Hc].
  destruct (load_tickers_sorted _ _ _ _ Hload) as [H1 [H2 [H3 H4]]].
  destruct Hc as [_ Hsrc]. repeat split; assumption.
Qed.

(** ** From the ticker list to the cleansed frame *)

Lemma cleanse_of_normalized (df : DataFrame) :
  Forall normalized_row df -> NoDup (map ticker df) ->
  cleanse_fundamentals df = map clean_values df.
Proof.
  intros Hnorm Hnd. unfold cleanse_fundamentals. f_equal.
  assert (Hmap : map normalize_ticker_row df = df).
  { rewrite <- (map_id df) at 2. apply map_ext_in. intros r Hin.
    rewrite Forall_forall in Hnorm. apply normalized_row_fixed, Hnorm, Hin. }
  unfold filter_tickers. rewrite Hmap.
  rewrite filter_all.
  - apply drop_duplicates_from_unique; [exact Hnd|]. intros k _ [].
  - rewrite Forall_forall in *. intros r Hin.
    apply normalized_row_kept, Hnorm, Hin.
Qed.

Lemma frame_of_snapshots_tickers (rows : list Snapshot) (df : DataFrame) :
  frame_of_snapshots rows = Some df ->
  map ticker df = map (fun s => Str (s_ticker s)) rows.
Proof.
  revert df. induction rows as [|s rows IH]; intros df H.
  - injection H as <-. reflexivity.
  - cbn [frame_of_snapshots] in H.
    destruct (row_of_snapshot s) as [r|] eqn:Hr; [|discriminate H].
    destruct (frame_of_snapshots rows) as [df'|]; [|discriminate H].
    injection H as <-. cbn [map]. rewrite (IH df' eq_refl). f_equal.
    unfold row_of_snapshot in Hr.
    destruct (text_of_pyval (s_company s)), (text_of_pyval (s_sector s)),
             (text_of_pyval (s_currency s)); try discriminate Hr.
    injection Hr as <-. reflexivity.
Qed.

Lemma tickers_frame_normalized (tickers : list string) (df : DataFrame) :
  Forall normalized_ticker tickers -> NoDup tickers ->
  map ticker df = map Str tickers ->
  Forall normalized_row df /\ NoDup (map ticker df).
Proof.
  intros Hnorm Hnd Hmap. split.
  - rewrite Forall_forall. intros r Hin.
    assert (Ht : In (ticker r) (map Str tickers))
      by (rewrite <- Hmap; apply in_map, Hin).
    apply in_map_iff in Ht. destruct Ht as [t [Ht Hin']].
    rewrite Forall_forall in Hnorm. destruct (Hnorm t Hin') as [Hne Hfix].
    exists t. repeat split; [symmetry; exact Ht | exact Hfix | exact Hne].
  - rewrite Hmap. apply NoDup_map_Str, Hnd.
Qed.

(** X18: the tickers [load_nasdaq100_tickers] answers all survive the
    cleansing of the frame fetched for them: the cleansed frame has one
    row per loaded ticker, in the order of the list, with the ticker
    unchanged; no row is dropped as empty or duplicate, and cleansing
    only cleans the values of each row. *)
Theorem loaded_tickers_survive_cleansing (use_wikipedia : bool)
    (wikipedia : option (list Frame)) (fallback_file : option Frame)
    (float_of_str : string -> option float)
    (info_of fast_info_of : string -> option dict)
    (tickers : list string) (df : DataFrame) :
  load_nasdaq100_tickers use_wikipedia wikipedia fallback_file = Ok tickers ->
  frame_of_snapshots
    (fetch_fundamentals float_of_str info_of fast_info_of tickers) = Some df ->
  cleanse_fundamentals df = map clean_values df /\
  map ticker (cleanse_fundamentals df) = map Str tickers.
Proof.
  intros Hload Hframe.
  destruct (load_tickers_sorted _ _ _ _ Hload) as [_ [_ [Hnd Hnorm]]].
  assert (Hmap : map ticker df = map Str tickers).
  { rewrite (frame_of_snapshots_tickers _ _ Hframe).
    unfold fetch_fundamentals. rewrite map_map. reflexivity. }
  destruct (tickers_frame_normalized tickers df Hnorm Hnd Hmap) as [Hn Hd].
  rewrite (cleanse_of_normalized df Hn Hd). split; [reflexivity|].
  rewrite map_ticker_clean_values. exact Hmap.
Qed.

Lemma loaded_tickers_survive_cleansing_witness :
  load_nasdaq100_tickers false None (Some sample_ticker_file)
    = Ok ["AAPL"; "BRK-B"; "MSFT"] /\
  (exists df,
     frame_of_snapshots
       (fetch_fundamentals (fun _ => None) (fun _ => Some sample_info)
          (fun _ => Some sample_fast_info) ["AAPL"; "BRK-B"; "MSFT"])
       = Some df /\
     cleanse_fundamentals df = map clean_values df /\
     map ticker (cleanse_fundamentals df) = map Str ["AAPL"; "BRK-B"; "MSFT"]).
Proof.
  assert (Hload : load_nasdaq100_tickers false None (Some sample_ticker_file)
                  = Ok ["AAPL"; "BRK-B"; "MSFT"]) by (vm_compute; reflexivity).
  split; [exact Hload|].
  destruct (frame_of_snapshots
              (fetch_fundamentals (fun _ => None) (fun _ => Some sample_info)
                 (fun _ => Some sample_fast_info) ["AAPL"; "BRK-B"; "MSFT"]))
    as [df|] eqn:Hframe; [|vm_compute in Hframe; discriminate Hframe].
  exists df. split; [reflexivity|].
  exact (loaded_tickers_survive_cleansing false None (Some sample_ticker_file)
           (fun _ => None) (fun _ => Some sample_info)
           (fun _ => Some sample_fast_info) ["AAPL"; "BRK-B"; "MSFT"] df
           Hload Hframe).
Defined.

(** ** Frames without rows *)

Lemma fetched_frame_rows (use_wikipedia : bool)
    (wikipedia : option (list Frame)) (fallback_file : option Frame)
    (float_of_str : string -> option float)
    (info_of fast_info_of : string -> option dict)
    (tickers : list string) (df : DataFrame) :
  load_nasdaq100_tickers use_wikipedia wikipedia fallback_file = Ok tickers ->
  frame_of_snapshots
    (fetch_fundamentals float_of_str info_of fast_info_of tickers) = Some df ->
  tickers <> [] /\ length df = length tickers /\
  cleanse_fundamentals df = map clean_values df.
Proof.
  intros Hload Hframe.
  destruct (load_tickers_sorted _ _ _ _ Hload) as [Hne [_ [Hnd Hnorm]]].
  assert (Hmap : map ticker df = map Str tickers).
  { rewrite (frame_of_snapshots_tickers _ _ Hframe).
    unfold fetch_fundamentals. rewrite map_map. reflexivity. }
  destruct (tickers_frame_normalized tickers df Hnorm Hnd Hmap) as [Hn Hd].
  split; [exact Hne|]. split.
  - rewrite <- (length_map ticker df), Hmap. apply length_map.
  - apply cleanse_of_normalized; assumption.
Qed.




(** ** Output layout *)

Lemma mem_string_In (c : string) (l : list string) :
  mem_string c l = true <-> In c l.
Proof.
  unfold mem_string. rewrite existsb_exists. split.
  - intros [x [Hin Heq]]. apply String.eqb_eq in Heq. subst. exact Hin.
  - intro Hin. exists c. split; [exact Hin | apply String.eqb_refl].
Qed.

Lemma filter_split_perm (A : Type) (f : A -> bool) (l : list A) :
  Permutation (filter f l ++ filter (fun x => negb (f x)) l) l.
Proof.
  induction l as [|x l IH]; [apply perm_nil|].
  cbn [filter]. destruct (f x); cbn [negb app].
  - apply perm_skip, IH.
  - apply Permutation_sym, Permutation_cons_app, Permutation_sym, IH.
Qed.

Lemma ordered_NoDup : NoDup ordered.
Proof.
  assert (H : nodup string_dec ordered = ordered) by (vm_compute; reflexivity).
  rewrite <- H. apply NoDup_nodup.
Qed.

Lemma reorder_perm (columns : list string) :
  NoDup columns ->
  Permutation
    (filter (fun c => mem_string c columns) ordered
     ++ filter (fun c => negb (mem_string c ordered)) columns)
    columns.
Proof.
  intro Hnd.
  apply perm_trans with
    (filter (fun c => mem_string c ordered) columns
     ++ filter (fun c => negb (mem_string c ordered)) columns);
    [|apply filter_split_perm].
  apply Permutation_app_tail, NoDup_Permutation.
  - apply NoDup_filter, ordered_NoDup.
  - apply NoDup_filter, Hnd.
  - intro c. rewrite !filter_In, !mem_string_In. tauto.
Qed.

(** X19: for a frame with distinct labels, [_build_output] raises
    [ValueError] exactly when the frame already has a column
    "as_of_date" or "run_ts_utc"; otherwise the labels it answers are a
    rearrangement of the two new labels and the labels of the frame, so
    no column is lost or repeated, the listed ones first in the listed
    order and the others after them in their own order. For the columns
    [fetch_fundamentals] and [apply_valuation] make, the answer is the
    listed order itself. *)
Theorem build_output_keeps_columns :
  (forall columns : list string,
     NoDup columns ->
     match _build_output columns with
     | Ok out =>
         ~ In "as_of_date" columns /\ ~ In "run_ts_utc" columns /\
         Permutation out ("as_of_date" :: "run_ts_utc" :: columns) /\
         out = filter (fun c => mem_string c
                                  ("as_of_date" :: "run_ts_utc" :: columns))
                      ordered
               ++ filter (fun c => negb (mem_string c ordered)) columns
     | Raise e =>
         (exists message, e = ValueError message) /\
         (In "as_of_date" columns \/ In "run_ts_utc" columns)
     end) /\
  _build_output (snapshot_columns ++ valuation_columns) = Ok ordered.
Proof.
  split; [|vm_compute; reflexivity].
  intros columns Hnd. unfold _build_output, insert_column.
  destruct (mem_string "as_of_date" columns) eqn:Ha.
  { split; [eexists; reflexivity|]. left. apply mem_string_In, Ha. }
  cbn [length Nat.ltb Nat.leb firstn skipn app].
  replace (mem_string "run_ts_utc" ("as_of_date" :: columns))
    with (mem_string "run_ts_utc" columns) by reflexivity.
  destruct (mem_string "run_ts_utc" columns) eqn:Hb.
  { split; [eexists; reflexivity|]. right. apply mem_string_In, Hb. }
  cbn [length Nat.ltb Nat.leb firstn skipn app].
  assert (Na : ~ In "as_of_date" columns).
  { intro H. apply mem_string_In in H. rewrite H in Ha. discriminate Ha. }
  assert (Nb : ~ In "run_ts_utc" columns).
  { intro H. apply mem_string_In in H. rewrite H in Hb. discriminate Hb. }
  split; [exact Na|]. split; [exact Nb|]. split.
  - apply reorder_perm. constructor.
    + intros [H|H]; [discriminate H | contradiction].
    + constructor; assumption.
  - reflexivity.
Qed.

Lemma build_output_keeps_columns_witness :
  NoDup (snapshot_columns ++ valuation_columns) /\
  match _build_output (snapshot_columns ++ valuation_columns) with
  | Ok out =>
      Permutation out
        ("as_of_date" :: "run_ts_utc"
         :: snapshot_columns ++ valuation_columns)
  | Raise _ => False
  end.
Proof.
  assert (Hnd : NoDup (snapshot_columns ++ valuation_columns)).
  { assert (H : nodup string_dec (snapshot_columns ++ valuation_columns)
                = snapshot_columns ++ valuation_columns)
      by (vm_compute; reflexivity).
    rewrite <- H. apply NoDup_nodup. }
  split; [exact Hnd|].
  pose proof (proj1 build_output_keeps_columns
                (snapshot_columns ++ valuation_columns) Hnd) as H.
  destruct (_build_output (snapshot_columns ++ valuation_columns)) as [out|e].
  - apply H.
  - destruct H as [_ [H|H]]; vm_compute in H; intuition discriminate.
Defined.

(** ** Settings *)

Lemma lower_upper_char (c : ascii) : lower_char (upper_char c) = lower_char c.
Proof. destruct c as [[] [] [] [] [] [] [] []]; reflexivity. Qed.

Lemma lower_char_idempotent (c : ascii) :
  lower_char (lower_char c) = lower_char c.
Proof. destruct c as [[] [] [] [] [] [] [] []]; reflexivity. Qed.

Lemma is_space_lower (c : ascii) : is_space (lower_char c) = is_space c.
Proof. destruct c as [[] [] [] [] [] [] [] []]; reflexivity. Qed.

Lemma lower_strip_upper (s : string) :
  lower (strip (upper s)) = lower (strip s).
Proof.
  unfold lower, upper.
  rewrite strip_map_chars by apply is_space_upper.
  rewrite map_chars_compose. apply map_chars_ext, lower_upper_char.
Qed.

Lemma rstrip_append_space (s : string) (c : ascii) :
  is_space c = true -> rstrip (s ++ String c "")%string = rstrip s.
Proof.
  intro Hc. induction s as [|a s IH]; cbn [append rstrip].
  - rewrite Hc. reflexivity.
  - rewrite IH. reflexivity.
Qed.

Lemma strip_padded (s : string) (c1 c2 : ascii) :
  is_space c1 = true -> is_space c2 = true ->
  strip (String c1 (s ++ String c2 ""))%string = strip s.
Proof.
  intros H1 H2. unfold strip. cbn [lstrip]. rewrite H1.
  rewrite <- !lstrip_rstrip, rstrip_append_space by exact H2. reflexivity.
Qed.

(** X20: [_env_bool] answers the default only for a variable that is not
    set. For a variable that is set the default plays no part: the
    answer is the same for either default, it is false when the text is
    blank, and for an ASCII text it does not change when the text is put
    in upper case or wrapped in ASCII white space. *)
Theorem env_bool_reading (getenv : string -> option string) (key : string)
    (default : bool) :
  (getenv key = None -> _env_bool getenv key default = default) /\
  (forall raw, getenv key = Some raw ->
     _env_bool getenv key default = _env_bool getenv key (negb default) /\
     (strip raw = "" -> _env_bool getenv key default = false) /\
     (forall getenv' c1 c2,
        is_ascii raw = true ->
        is_space c1 = true -> is_space c2 = true ->
        getenv' key = Some (String c1 (upper raw ++ String c2 ""))%string ->
        _env_bool getenv' key default = _env_bool getenv key default)).
Proof.
  unfold _env_bool. split.
  - intro H. rewrite H. reflexivity.
  - intros raw H. rewrite H. split; [reflexivity|]. split.
    + intro E. rewrite E. reflexivity.
    + intros getenv' c1 c2 _ H1 H2 H'. rewrite H'.
      rewrite strip_padded by assumption.
      rewrite lower_strip_upper. reflexivity.
Qed.

Lemma lower_idempotent (s : string) : lower (lower s) = lower s.
Proof.
  unfold lower. rewrite map_chars_compose.
  apply map_chars_ext, lower_char_idempotent.
Qed.

Lemma strip_lower (s : string) : strip (lower s) = lower (strip s).
Proof. apply strip_map_chars, is_space_lower. Qed.

Lemma or_none_given (s : string) :
  or_none s = None \/ given (or_none s) = true.
Proof.
  unfold or_none. destruct (String.eqb s "") eqn:E; [left; reflexivity|].
  right. cbn [given]. rewrite E. reflexivity.
Qed.

Lemma load_settings_fields (float_of_str : string -> option float)
    (getenv : string -> option string) (st : Settings) :
  load_settings float_of_str getenv = Ok st ->
  drive_auth_mode st =
    lower (strip (getenv_or getenv "GOOGLE_DRIVE_AUTH_MODE" "oauth")) /\
  drive_folder_id st =
    or_none (strip (getenv_or getenv "GOOGLE_DRIVE_FOLDER_ID" "")) /\
  drive_file_id st =
    or_none (strip (getenv_or getenv "GOOGLE_DRIVE_FILE_ID" "")) /\
  log_file_prefix st =
    or_string (strip (getenv_or getenv "LOG_FILE_PREFIX" "pipeline"))
              "pipeline" /\
  float_of_str (getenv_or getenv "UNDERVALUED_THRESHOLD" "0.90")
    = Some (undervalued_threshold st) /\
  float_of_str (getenv_or getenv "OVERVALUED_THRESHOLD" "1.10")
    = Some (overvalued_threshold st) /\
  float_of_str (getenv_or getenv "PEG_MAX" "1.0")
    = Some (settings_peg_max st) /\
  float_of_str (getenv_or getenv "PE_SECTOR_MAX_MULT" "1.0")
    = Some (settings_pe_sector_max_mult st) /\
  float_of_str (getenv_or getenv "MARGIN_OF_SAFETY_MIN" "0.0")
    = Some (settings_margin_of_safety_min st).
Proof.
  unfold load_settings, bind, float_of.
  destruct (float_of_str (getenv_or getenv "UNDERVALUED_THRESHOLD" "0.90"));
    [|intro H; discriminate H].
  destruct (float_of_str (getenv_or getenv "OVERVALUED_THRESHOLD" "1.10"));
    [|intro H; discriminate H].
  destruct (float_of_str (getenv_or getenv "PEG_MAX" "1.0"));
    [|intro H; discriminate H].
  destruct (float_of_str (getenv_or getenv "PE_SECTOR_MAX_MULT" "1.0"));
    [|intro H; discriminate H].
  destruct (float_of_str (getenv_or getenv "MARGIN_OF_SAFETY_MIN" "0.0"));
    [|intro H; discriminate H].
  intro H. injection H as <-. repeat split; reflexivity.
Qed.

(** X21: [load_settings] answers settings exactly when the five
    thresholds, taken from the environment or from their defaults, parse
    as floats, and raises [ValueError] otherwise; in the settings it
    answers, the Drive auth mode is trimmed and in lower case, the folder
    id and the file id are absent or non-empty, never blank, and the log
    file prefix is not empty. *)
Theorem load_settings_normalizes (float_of_str : string -> option float)
    (getenv : string -> option string) :
  match load_settings float_of_str getenv with
  | Ok st =>
      lower (drive_auth_mode st) = drive_auth_mode st /\
      strip (drive_auth_mode st) = drive_auth_mode st /\
      (drive_folder_id st = None \/ given (drive_folder_id st) = true) /\
      (drive_file_id st = None \/ given (drive_file_id st) = true) /\
      log_file_prefix st <> "" /\
      Forall (fun key_default =>
                float_of_str (getenv_or getenv (fst key_default)
                                        (snd key_default)) <> None)
             [("UNDERVALUED_THRESHOLD", "0.90");
              ("OVERVALUED_THRESHOLD", "1.10"); ("PEG_MAX", "1.0");
              ("PE_SECTOR_MAX_MULT", "1.0"); ("MARGIN_OF_SAFETY_MIN", "0.0")]
  | Raise e =>
      (exists message, e = ValueError message) /\
      Exists (fun key_default =>
                float_of_str (getenv_or getenv (fst key_default)
                                        (snd key_default)) = None)
             [("UNDERVALUED_THRESHOLD", "0.90");
              ("OVERVALUED_THRESHOLD", "1.10"); ("PEG_MAX", "1.0");
              ("PE_SECTOR_MAX_MULT", "1.0"); ("MARGIN_OF_SAFETY_MIN", "0.0")]
  end.
Proof.
  destruct (load_settings float_of_str getenv) as [st|e] eqn:Hload.
  - destruct (load_settings_fields _ _ _ Hload)
      as [Hmode [Hfolder [Hfile [Hprefix [F1 [F2 [F3 [F4 F5]]]]]]]].
    rewrite Hmode, Hfolder, Hfile, Hprefix.
    split; [apply lower_idempotent|].
    split; [rewrite strip_lower, strip_idempotent; reflexivity|].
    split; [apply or_none_given|]. split; [apply or_none_given|]. split.
    + unfold or_string.
      destruct (String.eqb_spec
                  (strip (getenv_or getenv "LOG_FILE_PREFIX" "pipeline")) "")
        as [E|E]; [discriminate | exact E].
    + repeat constructor; cbn [fst snd];
        rewrite ?F1, ?F2, ?F3, ?F4, ?F5; discriminate.
  - revert Hload. unfold load_settings, bind, float_of.
    destruct (float_of_str (getenv_or getenv "UNDERVALUED_THRESHOLD" "0.90"))
      eqn:E1;
      [|intro H; injection H as <-; split; [eexists; reflexivity|];
        apply Exists_cons_hd; exact E1].
    destruct (float_of_str (getenv_or getenv "OVERVALUED_THRESHOLD" "1.10"))
      eqn:E2;
      [|intro H; injection H as <-; split; [eexists; reflexivity|];
        apply Exists_cons_tl, Exists_cons_hd; exact E2].
    destruct (float_of_str (getenv_or getenv "PEG_MAX" "1.0")) eqn:E3;
      [|intro H; injection H as <-; split; [eexists; reflexivity|];
        do 2 apply Exists_cons_tl; apply Exists_cons_hd; exact E3].
    destruct (float_of_str (getenv_or getenv "PE_SECTOR_MAX_MULT" "1.0"))
      eqn:E4;
      [|intro H; injection H as <-; split; [eexists; reflexivity|];
        do 3 apply Exists_cons_tl; apply Exists_cons_hd; exact E4].
    destruct (float_of_str (getenv_or getenv "MARGIN_OF_SAFETY_MIN" "0.0"))
      eqn:E5;
      [|intro H; injection H as <-; split; [eexists; reflexivity|];
        do 4 apply Exists_cons_tl; apply Exists_cons_hd; exact E5].
    intro H. discriminate H.
Qed.

(** ** Drive upload *)

Lemma escape_head_not_quote (text : string) (c : ascii) (rest : string) :
  _escape_drive_query text = String c rest -> Ascii.eqb c "'"%char = false.
Proof.
  destruct text as [|a text]; [intro H; discriminate H|].
  cbn [_escape_drive_query]. destruct (Ascii.eqb a "'"%char) eqn:E.
  - intro H. injection H as <- _. reflexivity.
  - intro H. injection H as <- _. exact E.
Qed.

Lemma unescape_escape (text : string) :
  unescape_drive_query (_escape_drive_query text) = text.
Proof.
  induction text as [|c text IH]; [reflexivity|].
  cbn [_escape_drive_query]. destruct (Ascii.eqb c "'"%char) eqn:E.
  - apply Ascii.eqb_eq in E. subst c.
    cbn [unescape_drive_query]. rewrite IH. reflexivity.
  - destruct (_escape_drive_query text) as [|c' rest] eqn:Hrest.
    + cbn [unescape_drive_query] in *. subst text. reflexivity.
    + rewrite <- IH.
      replace (unescape_drive_query (String c (String c' rest)))
        with (if Ascii.eqb c "\"%char && Ascii.eqb c' "'"%char
              then String "'"%char (unescape_drive_query rest)
              else String c (unescape_drive_query (String c' rest)))
        by reflexivity.
      rewrite (escape_head_not_quote _ _ _ Hrest), andb_false_r.
      reflexivity.
Qed.

Lemma escape_quotes_follow (text : string) (prev : bool) :
  quotes_follow_backslash prev (_escape_drive_query text) = true.
Proof.
  revert prev. induction text as [|c text IH]; intro prev; [reflexivity|].
  cbn [_escape_drive_query]. destruct (Ascii.eqb c "'"%char) eqn:E.
  - cbn [quotes_follow_backslash].
    replace (Ascii.eqb "\"%char "'"%char) with false by reflexivity.
    replace (Ascii.eqb "\"%char "\"%char) with true by reflexivity.
    replace (Ascii.eqb "'"%char "'"%char) with true by reflexivity.
    cbn [andb]. apply IH.
  - cbn [quotes_follow_backslash]. rewrite E. cbn [andb]. apply IH.
Qed.

Lemma escape_length (text : string) :
  String.length (_escape_drive_query text) =
  String.length text + count_char "'"%char text.
Proof.
  induction text as [|c text IH]; [reflexivity|].
  cbn [_escape_drive_query count_char String.length].
  destruct (Ascii.eqb c "'"%char); cbn [String.length]; rewrite IH; lia.
Qed.

Lemma escape_backslashes (text : string) :
  count_char "\"%char (_escape_drive_query text) =
  count_char "\"%char text + count_char "'"%char text.
Proof.
  induction text as [|c text IH]; [reflexivity|].
  cbn [_escape_drive_query]. destruct (Ascii.eqb c "'"%char) eqn:E.
  - apply Ascii.eqb_eq in E. subst c. cbn [count_char].
    replace (Ascii.eqb "\"%char "\"%char) with true by reflexivity.
    replace (Ascii.eqb "'"%char "\"%char) with false by reflexivity.
    replace (Ascii.eqb "'"%char "'"%char) with true by reflexivity.
    rewrite IH. lia.
  - cbn [count_char]. rewrite E, IH. lia.
Qed.

(** X22: [_escape_drive_query] puts a backslash before every quote and
    changes nothing else: in its answer every quote stands right after a
    backslash, taking those backslashes out again gives the text back,
    and the answer is longer than the text by the number of its quotes.
    A backslash of the text is left as it is. *)
Theorem escape_drive_query_round_trip (text : string) :
  unescape_drive_query (_escape_drive_query text) = text /\
  quotes_follow_backslash false (_escape_drive_query text) = true /\
  String.length (_escape_drive_query text) =
    String.length text + count_char "'"%char text /\
  count_char "\"%char (_escape_drive_query text) =
    count_char "\"%char text + count_char "'"%char text.
Proof.
  split; [apply unescape_escape|].
  split; [apply escape_quotes_follow|].
  split; [apply escape_length | apply escape_backslashes].
Qed.

Lemma drive_service_credentials (exists_ : string -> bool)
    (auth_mode : string)
    (service_account_file oauth_client_file oauth_token_file : option string) :
  match get_drive_service exists_ auth_mode service_account_file
                          oauth_client_file oauth_token_file with
  | Ok (OAuthCredentials client token) =>
      lower (or_string auth_mode "service_account") = "oauth"
  | Ok (ServiceAccountCredentials key) =>
      lower (or_string auth_mode "service_account") <> "oauth"
  | Raise e => True
  end.
Proof.
  unfold get_drive_service.
  destruct (String.eqb_spec (lower (or_string auth_mode "service_account"))
                            "oauth") as [E|E].
  - destruct oauth_client_file as [c|]; [|exact I].
    destruct (exists_ c); [exact E | exact I].
  - destruct service_account_file as [k|]; [|exact I].
    destruct (exists_ k); [exact E | exact I].
Qed.

(** X23: [get_drive_service] only builds a client from a credential file
    that was given and exists: OAuth credentials when the auth mode,
    whatever its case, reads "oauth", from the Drive client file and the
    token file or its default path; service-account credentials for any
    other mode, the empty one included; [ValueError] when the file the
    mode needs is not given or does not exist. *)
Theorem drive_service_needs_credential_file (exists_ : string -> bool)
    (auth_mode : string)
    (service_account_file oauth_client_file oauth_token_file : option string) :
  match get_drive_service exists_ auth_mode service_account_file
                          oauth_client_file oauth_token_file with
  | Ok (OAuthCredentials client token) =>
      lower (or_string auth_mode "service_account") = "oauth" /\
      auth_mode <> "" /\
      oauth_client_file = Some client /\ exists_ client = true /\
      token = match oauth_token_file with
              | Some t => t
              | None => "config/oauth_token.json"
              end
  | Ok (ServiceAccountCredentials key) =>
      lower (or_string auth_mode "service_account") <> "oauth" /\
      service_account_file = Some key /\ exists_ key = true
  | Raise e =>
      exists message, e = ValueError message /\
      (if String.eqb (lower (or_string auth_mode "service_account")) "oauth"
       then forall c, oauth_client_file = Some c -> exists_ c = false
       else forall k, service_account_file = Some k -> exists_ k = false)
  end.
Proof.
  unfold get_drive_service.
  destruct (String.eqb_spec (lower (or_string auth_mode "service_account"))
                            "oauth") as [E|E].
  - destruct oauth_client_file as [c|].
    + destruct (exists_ c) eqn:Hc.
      * repeat split; try assumption; try reflexivity.
        intro Hm. subst auth_mode. discriminate E.
      * eexists. split; [reflexivity|]. intros c' H. injection H as <-.
        exact Hc.
    + eexists. split; [reflexivity|]. intros c' H. discriminate H.
  - destruct service_account_file as [k|].
    + destruct (exists_ k) eqn:Hk.
      * repeat split; try assumption; reflexivity.
      * eexists. split; [reflexivity|]. intros k' H. injection H as <-.
        exact Hk.
    + eexists. split; [reflexivity|]. intros k' H. discriminate H.
Qed.

Lemma create_new_file_created (file_name : string)
    (folder_id : option string) (auth_mode : string)
    (convert_to_sheets : bool) (n : string) (p m : option string) :
  create_new_file file_name folder_id auth_mode convert_to_sheets
    = Created n p m ->
  n = file_name /\
  (auth_mode = "oauth" \/ given folder_id = true) /\
  p = (if given folder_id then folder_id else None) /\
  m = (if convert_to_sheets then Some _SHEET_MIME else None).
Proof.
  unfold create_new_file.
  destruct (String.eqb_spec auth_mode "oauth") as [E|E]; cbn [negb andb].
  - intro H. injection H as <- <- <-. repeat split. left. exact E.
  - destruct (given folder_id) eqn:G; cbn [negb];
      intro H; [|discriminate H].
    injection H as <- <- <-. repeat split. right. reflexivity.
Qed.

Lemma create_new_file_not_updated (file_name : string)
    (folder_id : option string) (auth_mode : string)
    (convert_to_sheets : bool) (id : string) :
  create_new_file file_name folder_id auth_mode convert_to_sheets
    <> Updated id.
Proof.
  unfold create_new_file.
  destruct (negb (String.eqb auth_mode "oauth") && negb (given folder_id));
    discriminate.
Qed.

(** X24: when [upload_file] creates a file, it is under the given name,
    for OAuth credentials or inside a given folder: with another auth
    mode and no folder id, an empty one included, nothing is created.
    The new file has the folder as its only parent when one is given and
    none otherwise, and the spreadsheet MIME type exactly when
    [convert_to_sheets] is set. *)
Theorem upload_creates_only_with_folder (exists_ : string -> bool)
    (media : bool) (files_list : string -> result (list (option string)))
    (files_get : string -> result (option string))
    (service_account_file : option string) (file_name : string)
    (folder_id file_id : option string) (auth_mode : string)
    (oauth_client_file oauth_token_file : option string)
    (convert_to_sheets : bool) (n : string) (p m : option string) :
  upload_file exists_ media files_list files_get service_account_file
    file_name folder_id file_id auth_mode oauth_client_file oauth_token_file
    convert_to_sheets = Created n p m ->
  n = file_name /\
  (auth_mode = "oauth" \/ given folder_id = true) /\
  p = (if given folder_id then folder_id else None) /\
  m = (if convert_to_sheets then Some _SHEET_MIME else None) /\
  p <> Some "".
Proof.
  unfold upload_file.
  destruct (get_drive_service exists_ auth_mode service_account_file
              oauth_client_file oauth_token_file); [|intro H; discriminate H].
  destruct media; cbn [negb]; [|intro H; discriminate H].
  destruct (if negb (given file_id)
            then find_existing_file_id files_list file_name folder_id
            else Ok file_id) as [found|e]; [|intro H; discriminate H].
  assert (Hcreate :
            create_new_file file_name folder_id auth_mode convert_to_sheets
              = Created n p m ->
            n = file_name /\
            (auth_mode = "oauth" \/ given folder_id = true) /\
            p = (if given folder_id then folder_id else None) /\
            m = (if convert_to_sheets then Some _SHEET_MIME else None) /\
            p <> Some "").
  { intro H. apply create_new_file_created in H.
    destruct H as [H1 [H2 [H3 H4]]]. repeat split; try assumption.
    rewrite H3. destruct folder_id as [f|]; cbn [given]; [|discriminate].
    destruct (String.eqb_spec f "") as [E|E]; cbn [negb]; [discriminate|].
    intro H. injection H as ->. contradiction E. reflexivity. }
  destruct (keep_if_sheet files_get found convert_to_sheets) as [id|] eqn:K;
    [|exact Hcreate].
  destruct (given (Some id)); [intro H; discriminate H | exact Hcreate].
Qed.

Lemma upload_creates_only_with_folder_witness :
  upload_file (fun _ => true) true empty_drive_list no_metadata
    (Some "config/service_account.json")
    "nasdaq100_valuations.csv" (Some "folder-1") None "service_account"
    None None true
  = Created "nasdaq100_valuations.csv" (Some "folder-1") (Some _SHEET_MIME)
  /\ ("nasdaq100_valuations.csv" = "nasdaq100_valuations.csv" /\
      ("service_account" = "oauth" \/ given (Some "folder-1") = true) /\
      Some "folder-1" = (if given (Some "folder-1") then Some "folder-1"
                         else None) /\
      Some _SHEET_MIME = (if true then Some _SHEET_MIME else None) /\
      Some "folder-1" <> Some "").
Proof.
  assert (H : upload_file (fun _ => true) true empty_drive_list no_metadata
                (Some "config/service_account.json")
                "nasdaq100_valuations.csv" (Some "folder-1") None
                "service_account" None None true
              = Created "nasdaq100_valuations.csv" (Some "folder-1")
                        (Some _SHEET_MIME)).
  { vm_compute. reflexivity. }
  split; [exact H|].
  exact (upload_creates_only_with_folder (fun _ => true) true empty_drive_list
           no_metadata (Some "config/service_account.json")
           "nasdaq100_valuations.csv" (Some "folder-1") None
           "service_account" None None true _ _ _ H).
Defined.

Lemma keep_if_sheet_some (files_get : string -> result (option string))
    (found : option string) (convert_to_sheets : bool) (id : string) :
  keep_if_sheet files_get found convert_to_sheets = Some id ->
  found = Some id /\
  (convert_to_sheets = true -> given found = true ->
   files_get id = Ok (Some _SHEET_MIME)).
Proof.
  unfold keep_if_sheet. destruct (given found) eqn:G; cbn [andb].
  - destruct convert_to_sheets.
    + destruct found as [id'|]; [|intro H; discriminate H].
      destruct (files_get id') as [[mime|]|e] eqn:Hget;
        try (intro H; discriminate H).
      destruct (String.eqb_spec mime _SHEET_MIME) as [E|E];
        [|intro H; discriminate H].
      intro H. injection H as <-. split; [reflexivity|].
      intros _ _. rewrite Hget, E. reflexivity.
    + intro H. split; [exact H|]. intro C. discriminate C.
  - intro H. split; [exact H|]. intros _ C. discriminate C.
Qed.

(** X25: when [upload_file] updates a file, the file is the one whose id
    was given or, when none was given, the first one the search by name
    finds; its id is not empty; and with [convert_to_sheets] its metadata
    were read and say it is a spreadsheet, so a file of another type, or
    one whose metadata cannot be read, is never overwritten. *)
Theorem upload_updates_only_sheets (exists_ : string -> bool)
    (media : bool) (files_list : string -> result (list (option string)))
    (files_get : string -> result (option string))
    (service_account_file : option string) (file_name : string)
    (folder_id file_id : option string) (auth_mode : string)
    (oauth_client_file oauth_token_file : option string)
    (convert_to_sheets : bool) (id : string) :
  upload_file exists_ media files_list files_get service_account_file
    file_name folder_id file_id auth_mode oauth_client_file oauth_token_file
    convert_to_sheets = Updated id ->
  id <> "" /\
  (file_id = Some id \/
   given file_id = false /\
   find_existing_file_id files_list file_name folder_id = Ok (Some id)) /\
  (convert_to_sheets = true -> files_get id = Ok (Some _SHEET_MIME)).
Proof.
  unfold upload_file.
  destruct (get_drive_service exists_ auth_mode service_account_file
              oauth_client_file oauth_token_file); [|intro H; discriminate H].
  destruct media; cbn [negb]; [|intro H; discriminate H].
  destruct (given file_id) eqn:G; cbn [negb].
  - destruct (keep_if_sheet files_get file_id convert_to_sheets) as [id'|]
      eqn:K.
    + destruct (given (Some id')) eqn:G'.
      * intro H. injection H as ->.
        destruct (keep_if_sheet_some _ _ _ _ K) as [Hf Hs].
        split; [intro E; subst id; discriminate G'|].
        split; [left; exact Hf|]. intro C. apply Hs; assumption.
      * intro H. contradiction (create_new_file_not_updated _ _ _ _ _ H).
    + intro H. contradiction (create_new_file_not_updated _ _ _ _ _ H).
  - destruct (find_existing_file_id files_list file_name folder_id)
      as [found|e] eqn:F; [|intro H; discriminate H].
    destruct (keep_if_sheet files_get found convert_to_sheets) as [id'|]
      eqn:K.
    + destruct (given (Some id')) eqn:G'.
      * intro H. injection H as ->.
        destruct (keep_if_sheet_some _ _ _ _ K) as [Hf Hs].
        split; [intro E; subst id; discriminate G'|].
        split; [right; split; [reflexivity | rewrite Hf; reflexivity]|].
        intro C. apply Hs; [exact C | rewrite Hf; exact G'].
      * intro H. contradiction (create_new_file_not_updated _ _ _ _ _ H).
    + intro H. contradiction (create_new_file_not_updated _ _ _ _ _ H).
Qed.

Lemma upload_updates_only_sheets_witness :
  upload_file (fun _ => true) true empty_drive_list
    (fun _ => Ok (Some _SHEET_MIME)) None "nasdaq100_valuations.csv" None
    (Some "sheet-1") "oauth" (Some "config/credentials.json") None true
  = Updated "sheet-1" /\
  ("sheet-1" <> "" /\
   (Some "sheet-1" = Some "sheet-1" \/
    given (Some "sheet-1") = false /\
    find_existing_file_id empty_drive_list "nasdaq100_valuations.csv" None
      = Ok (Some "sheet-1")) /\
   (true = true ->
    (fun _ : string => Ok (Some _SHEET_MIME)) "sheet-1"
      = Ok (Some _SHEET_MIME))).
Proof.
  assert (H : upload_file (fun _ => true) true empty_drive_list
                (fun _ => Ok (Some _SHEET_MIME)) None
                "nasdaq100_valuations.csv" None (Some "sheet-1") "oauth"
                (Some "config/credentials.json") None true
              = Updated "sheet-1") by (vm_compute; reflexivity).
  split; [exact H|].
  exact (upload_updates_only_sheets (fun _ => true) true empty_drive_list
           (fun _ => Ok (Some _SHEET_MIME)) None "nasdaq100_valuations.csv"
           None (Some "sheet-1") "oauth" (Some "config/credentials.json")
           None true "sheet-1" H).
Defined.

Lemma lower_fixed_oauth (mode : string) :
  lower mode = mode ->
  (lower (or_string mode "service_account") = "oauth" <-> mode = "oauth").
Proof.
  intro Hl. unfold or_string.
  destruct (String.eqb_spec mode "") as [E|E].
  - subst mode. split; intro H; discriminate H.
  - rewrite Hl. reflexivity.
Qed.

(** X26: the auth mode [load_settings] answers is read alike by the two
    tests of the upload: [get_drive_service] takes OAuth credentials
    exactly when [upload_file] lets a file be created without a folder.
    An auth mode that is not in lower case is read differently by the
    two: with "OAuth" the credentials are the OAuth ones, yet creating a
    file without a folder id is refused as for a service account. *)
Theorem auth_mode_read_alike :
  (forall (float_of_str : string -> option float)
          (getenv : string -> option string) (st : Settings)
          (exists_ : string -> bool)
          (service_account_file oauth_client_file oauth_token_file
             : option string),
     load_settings float_of_str getenv = Ok st ->
     match get_drive_service exists_ (drive_auth_mode st)
             service_account_file oauth_client_file oauth_token_file with
     | Ok (OAuthCredentials _ _) => drive_auth_mode st = "oauth"
     | Ok (ServiceAccountCredentials _) => drive_auth_mode st <> "oauth"
     | Raise _ => True
     end) /\
  (forall (exists_ : string -> bool) (client : string)
          (files_get : string -> result (option string))
          (file_name : string) (convert_to_sheets : bool),
     exists_ client = true ->
     get_drive_service exists_ "OAuth" None (Some client) None
       = Ok (OAuthCredentials client "config/oauth_token.json") /\
     exists message,
       upload_file exists_ true empty_drive_list files_get None file_name
         None None "OAuth" (Some client) None convert_to_sheets
       = Raised (ValueError message)).
Proof.
  split.
  - intros float_of_str getenv st exists_ sa oc ot Hload.
    destruct (load_settings_fields _ _ _ Hload) as [Hmode _].
    assert (Hl : lower (drive_auth_mode st) = drive_auth_mode st)
      by (rewrite Hmode; apply lower_idempotent).
    pose proof (drive_service_credentials exists_ (drive_auth_mode st)
                  sa oc ot) as Hc.
    destruct (get_drive_service exists_ (drive_auth_mode st) sa oc ot)
      as [[c t|k]|e]; [| |exact I].
    + apply (lower_fixed_oauth _ Hl), Hc.
    + intro E. apply Hc. apply (lower_fixed_oauth _ Hl), E.
  - intros exists_ client files_get file_name convert_to_sheets Hc.
    assert (Hs : get_drive_service exists_ "OAuth" None (Some client) None
                 = Ok (OAuthCredentials client "config/oauth_token.json")).
    { unfold get_drive_service.
      replace (String.eqb (lower (or_string "OAuth" "service_account"))
                          "oauth") with true by reflexivity.
      rewrite Hc. reflexivity. }
    split; [exact Hs|]. unfold upload_file. rewrite Hs.
    eexists. reflexivity.
Qed.

Lemma auth_mode_read_alike_witness :
  load_settings (fun _ => Some 1%float) (fun _ => None)
    = Ok (mkSettings "Asia/Bangkok" "data" "nasdaq100_latest.csv" true
            1 1 1 1 1 true "data/nasdaq100_tickers.csv" true "oauth"
            "config/service_account.json" "config/credentials.json"
            "config/oauth_token.json" true None "nasdaq100_valuations.csv"
            None "data/logs" "pipeline" true) /\
  match get_drive_service (fun _ => true) "oauth" None
          (Some "config/credentials.json") None with
  | Ok (OAuthCredentials _ _) => "oauth" = "oauth"
  | Ok (ServiceAccountCredentials _) => "oauth" <> "oauth"
  | Raise _ => True
  end.
Proof.
  assert (H : load_settings (fun _ => Some 1%float) (fun _ => None)
              = Ok (mkSettings "Asia/Bangkok" "data" "nasdaq100_latest.csv"
                      true 1 1 1 1 1 true "data/nasdaq100_tickers.csv" true
                      "oauth" "config/service_account.json"
                      "config/credentials.json" "config/oauth_token.json"
                      true None "nasdaq100_valuations.csv" None "data/logs"
                      "pipeline" true)) by (vm_compute; reflexivity).
  split; [exact H|].
  exact (proj1 auth_mode_read_alike (fun _ => Some 1%float) (fun _ => None)
           _ (fun _ => true) None (Some "config/credentials.json") None H).
Defined.
